(** * Meeting summarizer: transcription and summarization pipeline

    A shallow embedding of [meeting_summarizer.py] and the properties of
    its orchestration logic: the size gate and the chunking loop of
    [transcribe_audio], the glossary loader, the prompt builder, and the
    order of external effects in [main].

    Conventions.
    - A Python [str] is a list of Unicode code points ([N]); source
      literals are written with [py_lit], which reads the UTF-8 bytes of
      the literal and the escape [\n] the way the Python lexer does.
    - Python integers are [Z]; positions produced by [enumerate] are [nat].
    - External capabilities (file system queries, the audio decoder, the
      transcription and chat services, the clock) are fields of an
      environment record [Env]; every effect the script performs is
      appended to a trace of [event]s.
    - [logger] calls are recorded by level only.
    - An operation of the host that can refuse (exporting a chunk,
      printing, making a directory, opening or writing a file) is
      recorded as an event and then asks the environment whether it
      raises. *)

From Stdlib Require Import ZArith NArith QArith List String Ascii Lia Bool.
From Stdlib Require Import DecimalString DecimalNat.
From stdpp Require Import base option list gmap.
Import ListNotations.

Local Open Scope Z_scope.

(* ===================================================================== *)
(** ** Python strings *)
(* ===================================================================== *)

Module PyStr.

Abbreviation str := (list N).

Definition LF : N := 10%N.
Definition CR : N := 13%N.
Definition SLASH : N := 47%N.
Definition DOT : N := 46%N.
Definition HASH : N := 35%N.
Definition BACKSLASH : N := 92%N.
Definition LOWER_N : N := 110%N.

(** UTF-8 decoding of the bytes of a source literal. *)
Fixpoint utf8_decode (bs : list N) : str :=
  match bs with
  | [] => []
  | b0 :: t0 =>
      if (b0 <? 128)%N then b0 :: utf8_decode t0
      else if (b0 <? 224)%N then
        match t0 with
        | b1 :: t1 => ((b0 - 192) * 64 + (b1 - 128))%N :: utf8_decode t1
        | _ => []
        end
      else if (b0 <? 240)%N then
        match t0 with
        | b1 :: b2 :: t2 =>
            ((b0 - 224) * 4096 + (b1 - 128) * 64 + (b2 - 128))%N
              :: utf8_decode t2
        | _ => []
        end
      else
        match t0 with
        | b1 :: b2 :: b3 :: t3 =>
            ((b0 - 240) * 262144 + (b1 - 128) * 4096
             + (b2 - 128) * 64 + (b3 - 128))%N :: utf8_decode t3
        | _ => []
        end
  end.

(** The only escape sequence the script's literals use is [\n]. *)
Fixpoint unescape (s : str) : str :=
  match s with
  | [] => []
  | c :: t =>
      match t with
      | d :: t' =>
          if ((c =? BACKSLASH) && (d =? LOWER_N))%N
          then LF :: unescape t'
          else c :: unescape t
      | [] => [c]
      end
  end.

Definition py_lit (s : string) : str :=
  unescape (utf8_decode (List.map N_of_ascii (list_ascii_of_string s))).

(** [str.isspace] on one code point: the table of CPython's
    [_PyUnicode_IsWhitespace], which [str.strip()] uses. *)
Definition isspace (c : N) : bool :=
  ((9 <=? c) && (c <=? 13) || (28 <=? c) && (c <=? 32)
   || (c =? 133) || (c =? 160) || (c =? 5760)
   || (8192 <=? c) && (c <=? 8202)
   || (c =? 8232) || (c =? 8233) || (c =? 8239) || (c =? 8287)
   || (c =? 12288))%N.

Fixpoint lstrip_by (p : N -> bool) (s : str) : str :=
  match s with
  | [] => []
  | c :: t => if p c then lstrip_by p t else s
  end.

Definition rstrip_by (p : N -> bool) (s : str) : str :=
  rev (lstrip_by p (rev s)).

(** [s.strip()] *)
Definition strip (s : str) : str := rstrip_by isspace (lstrip_by isspace s).

(** [s.lstrip(chars)] and [s.rstrip(chars)] with an explicit character set *)
Definition lstrip_chars (chars s : str) : str :=
  lstrip_by (fun c => existsb (N.eqb c) chars) s.
Definition rstrip_chars (chars s : str) : str :=
  rstrip_by (fun c => existsb (N.eqb c) chars) s.

(** [s.startswith(p)] *)
Fixpoint startswith (s p : str) : bool :=
  match p, s with
  | [], _ => true
  | _ :: _, [] => false
  | a :: p', b :: s' => (a =? b)%N && startswith s' p'
  end.

(** [s.endswith(p)] *)
Definition endswith (s p : str) : bool := startswith (rev s) (rev p).

(** Truth value of a string: non-empty. *)
Definition truthy (s : str) : bool :=
  match s with [] => false | _ => true end.

(** [sep.join(parts)] *)
Fixpoint join (sep : str) (parts : list str) : str :=
  match parts with
  | [] => []
  | [p] => p
  | p :: rest => p ++ sep ++ join sep rest
  end.

(** [s.rfind(c)] for a single character: the highest index, or -1. *)
Fixpoint rfind_from (i : Z) (c : N) (s : str) : Z :=
  match s with
  | [] => -1
  | x :: t =>
      let r := rfind_from (i + 1) c t in
      if 0 <=? r then r else if (x =? c)%N then i else -1
  end.
Definition rfind (s : str) (c : N) : Z := rfind_from 0 c s.

(** Slices [s[:i]], [s[i:]] and [s[i:j]] for indices [0 <= i <= j]. *)
Definition slice_to (s : str) (i : Z) : str := firstn (Z.to_nat i) s.
Definition slice_from (s : str) (i : Z) : str := skipn (Z.to_nat i) s.
Definition slice (s : str) (i j : Z) : str := slice_from (slice_to s j) i.

(** [s in t] *)
Fixpoint contains (t s : str) : bool :=
  startswith t s || match t with [] => false | _ :: t' => contains t' s end.

(** [str(n)] for a non-negative integer *)
Definition str_of_nat (n : nat) : str :=
  List.map N_of_ascii
    (list_ascii_of_string (NilZero.string_of_uint (Nat.to_uint n))).

(** Decimal rendering padded with zeros on the left to [w] digits. *)
Definition zero_pad (w : nat) (n : nat) : str :=
  let d := str_of_nat n in
  repeat 48%N (w - length d)%nat ++ d.

End PyStr.
Import PyStr.

(* ===================================================================== *)
(** ** [os.path] on a POSIX host *)
(* ===================================================================== *)

Module PosixPath.

(** [os.path.basename(p)]: everything after the last slash. *)
Definition basename (p : str) : str :=
  let i := rfind p SLASH + 1 in
  slice_from p i.

(** [os.path.dirname(p)] *)
Definition dirname (p : str) : str :=
  let i := rfind p SLASH + 1 in
  let head := slice_to p i in
  if truthy head && negb (forallb (N.eqb SLASH) head)
  then rstrip_chars [SLASH] head
  else head.

(** [os.path.splitext(p)]: the extension starts at the last dot of the
    last path component, unless that component has only leading dots
    before it. *)
Definition splitext (p : str) : str * str :=
  let sepIndex := rfind p SLASH in
  let dotIndex := rfind p DOT in
  if (sepIndex <? dotIndex)
     && existsb (fun c => negb (c =? DOT)%N) (slice p (sepIndex + 1) dotIndex)
  then (slice_to p dotIndex, slice_from p dotIndex)
  else (p, []).

(** [os.path.join(a, b)] *)
Definition join2 (a b : str) : str :=
  if startswith b [SLASH] then b
  else if negb (truthy a) || endswith a [SLASH] then a ++ b
  else a ++ [SLASH] ++ b.

End PosixPath.
Import PosixPath.

(* ===================================================================== *)
(** ** Text files: universal newlines and line iteration *)
(* ===================================================================== *)

(** A file opened in text mode with the default [newline=None] hands out
    its content with [\r\n] and [\r] translated to [\n]. *)
Fixpoint translate_newlines (s : str) : str :=
  match s with
  | [] => []
  | c :: t =>
      if (c =? CR)%N then
        match t with
        | d :: t' =>
            if (d =? LF)%N then LF :: translate_newlines t'
            else LF :: translate_newlines t
        | [] => [LF]
        end
      else c :: translate_newlines t
  end.

(** Splitting after every [\n]; each line keeps its terminator. *)
Fixpoint split_lines (cur : str) (s : str) : list str :=
  match s with
  | [] => match cur with [] => [] | _ => [cur] end
  | c :: t =>
      if (c =? LF)%N then (cur ++ [c]) :: split_lines [] t
      else split_lines (cur ++ [c]) t
  end.

(** [for ln in f] *)
Definition file_lines (content : str) : list str :=
  split_lines [] (translate_newlines content).

(* ===================================================================== *)
(** ** Glossary loader *)
(* ===================================================================== *)

(** The condition of the comprehension in [load_special_terms]:
    [ln.strip() and not ln.startswith('#')]. *)
Definition keep_line (ln : str) : bool :=
  truthy (strip ln) && negb (startswith ln (py_lit "#")).

(** [[ln.strip() for ln in f if ln.strip() and not ln.startswith('#')]] *)
Definition terms_of_lines (lines : list str) : list str :=
  List.map strip (List.filter keep_line lines).

(** [SPECIAL_TERMS_FILE], given [__file__]. *)
Definition SPECIAL_TERMS_FILE (script_file : str) : str :=
  join2 (dirname script_file) (py_lit "special_terms.txt").

(** [load_special_terms()]. The file system maps the path of each text
    file to its decoded content; a path outside the map does not exist. *)
Definition load_special_terms (script_file : str) (files : gmap str str)
  : list str :=
  match files !! SPECIAL_TERMS_FILE script_file with
  | None => []
  | Some content => terms_of_lines (file_lines content)
  end.

(* ===================================================================== *)
(** ** Prompt builder *)
(* ===================================================================== *)

Definition KEY_MEETING : str := Eval vm_compute in py_lit "meeting".
Definition KEY_PRESENTATION : str := Eval vm_compute in py_lit "presentation".
Definition KEY_GENERAL : str := Eval vm_compute in py_lit "general".

Definition MEETING_CORE : str := Eval vm_compute in
  py_lit "あなたは優秀な会議書記担当AIです。以下の会議の文字起こし内容を日本語で要約してください。\n会議の主な目的、議論された主要なポイント、参加者の発言の要点、決定事項、およびネクストアクション（担当者と期限が明確な場合はそれも含む）を、構造化された箇条書き（Markdown形式）で示してください。".
Definition MEETING_SYS : str := Eval vm_compute in
  py_lit "会議の要点を正確に抽出し、議事録として分かりやすくまとめてください。".
Definition PRESENTATION_CORE : str := Eval vm_compute in
  py_lit "あなたは優秀なレポート作成AIです。以下の発表、講演、または講義の文字起こし内容を日本語で要約してください。\n発表の主要なテーマ、背景、提唱されている中心的なアイデアや議論、重要な論点や発見、そして結論や聴衆への主なメッセージを明確に箇条書き（Markdown形式）で示してください。".
Definition PRESENTATION_SYS : str := Eval vm_compute in
  py_lit "発表内容の核心を捉えた要約を作成してください。".
Definition GENERAL_CORE : str := Eval vm_compute in
  py_lit "あなたは優秀な要約AIです。以下の文字起こし内容を日本語で簡潔に要約してください。\nテキスト全体の主要な情報を抽出し、最も重要なポイントやトピックを箇条書き（Markdown形式）で分かりやすく示してください。".
Definition GENERAL_SYS : str := Eval vm_compute in
  py_lit "与えられたテキストの内容を正確に把握し、簡潔な要約を作成してください。".

(** The dictionary [types] of [build_prompt]. *)
Definition types : gmap str (str * str) :=
  <[KEY_MEETING := (MEETING_CORE, MEETING_SYS)]>
  (<[KEY_PRESENTATION := (PRESENTATION_CORE, PRESENTATION_SYS)]>
  (<[KEY_GENERAL := (GENERAL_CORE, GENERAL_SYS)]> ∅)).

(** The instruction line that opens the glossary section. *)
Definition TERM_HEADING : str := Eval vm_compute in
  py_lit "以下の専門用語を適切に使用してください:".

(** [f"- {t}"] *)
Definition bullet (t : str) : str := py_lit "- " ++ t.

(** [term_section] *)
Definition term_section (terms : list str) : str :=
  match terms with
  | [] => []
  | _ => (TERM_HEADING ++ [LF]) ++ join [LF] (List.map bullet terms)
  end.

Definition TRANSCRIPT_OPEN : str := Eval vm_compute in
  py_lit "\n文字起こし:\n---\n".
Definition TRANSCRIPT_CLOSE : str := Eval vm_compute in
  py_lit "\n---\n要約 (Markdown):".

(** [build_prompt(transcript, terms, prompt_type)] *)
Definition build_prompt (transcript : str) (terms : list str)
    (prompt_type : str) : str * str :=
  let '(core, sys_msg) :=
    default (types !!! KEY_GENERAL) (types !! prompt_type) in
  let prompt :=
    core ++ [LF] ++ term_section terms ++ TRANSCRIPT_OPEN
         ++ transcript ++ TRANSCRIPT_CLOSE in
  (prompt, sys_msg).

(* ===================================================================== *)
(** ** Audio segments and the chunk schedule *)
(* ===================================================================== *)

(** A [pydub.AudioSegment] is seen through the window of the recording
    it holds, in milliseconds; its content is opaque. *)
Record AudioSegment := { seg_start : Z; seg_end : Z }.

(** [len(audio)] *)
Definition seg_len (a : AudioSegment) : Z := seg_end a - seg_start a.

(** [audio[lo:hi]] for non-negative bounds: pydub clamps both bounds to
    [len(audio)]. *)
Definition seg_slice (a : AudioSegment) (lo hi : Z) : AudioSegment :=
  {| seg_start := seg_start a + Z.min lo (seg_len a);
     seg_end := seg_start a + Z.min hi (seg_len a) |}.

(** The segment [AudioSegment.from_file] returns for a recording of
    [d] milliseconds. *)
Definition whole_recording (d : Z) : AudioSegment :=
  {| seg_start := 0; seg_end := d |}.

(** [range(start, stop, step)] for a positive step, as the iteration it
    denotes: yield [cur] while [cur < stop], then advance by [step]. The
    fuel bounds the number of rounds and is never exhausted first
    (see [range_loop_more_fuel]). *)
Fixpoint range_loop (fuel : nat) (cur stop step : Z) : list Z :=
  match fuel with
  | O => []
  | S f => if cur <? stop then cur :: range_loop f (cur + step) stop step else []
  end.

Definition py_range (start stop step : Z) : list Z :=
  range_loop (S (Z.to_nat ((stop - start) / step))) start stop step.

(** [enumerate(xs)] *)
Fixpoint enumerate_from {A : Type} (i : nat) (xs : list A) : list (nat * A) :=
  match xs with
  | [] => []
  | x :: rest => (i, x) :: enumerate_from (S i) rest
  end.
Definition enumerate {A : Type} (xs : list A) : list (nat * A) :=
  enumerate_from 0 xs.

Definition MAX_FILE_SIZE_MB : Z := 25.
Definition AUDIO_CHUNK_LENGTH_MS : Z := 30 * 60 * 1000.

(** The separator of [transcribe_audio]'s final [join]. *)
Definition CHUNK_SEPARATOR : str := Eval vm_compute in
  py_lit "\n\n--- (次のチャンク) ---\n\n".

(* ===================================================================== *)
(** ** Effects: environment, events, state, and the script's monad *)
(* ===================================================================== *)

Inductive level := INFO | ERROR.

(** Exceptions the script can see. [SystemExit] is not an [Exception]. *)
Inductive exception :=
| SystemExit (code : Z)
| CouldntDecodeError
| AudioLoadError       (* any other exception out of [from_file] *)
| APIError             (* any exception out of the OpenAI client *)
| ExportError          (* [CouldntEncodeError] or any other exception out
                          of [chunk.export] *)
| IndexError
| AttributeError
| FileExistsError
| IsADirectoryError
| OSError.             (* any other exception out of [print],
                          [os.makedirs], [open] or [f.write] *)

Definition is_Exception (e : exception) : bool :=
  match e with SystemExit _ => false | _ => true end.

(** What [AudioSegment.from_file] does with a path. *)
Inductive decode_result :=
| Decoded (duration_ms : Z)
| CouldntDecode
| LoadFailed.

(** [chat.completions.create] parameters. *)
Record chat_request := {
  req_model : str;
  req_system : str;
  req_user : str;
  req_max_tokens : Z;
  req_temperature : Q
}.

Record datetime := {
  dt_year : nat; dt_month : nat; dt_day : nat;
  dt_hour : nat; dt_minute : nat; dt_second : nat; dt_microsecond : nat
}.

Inductive event :=
| EvLog (lvl : level)
| EvDecode (path : str)
| EvMkdtemp (dir : str)
| EvExport (idx : nat) (chunk : AudioSegment) (chunk_path : str) (format : str)
| EvTranscribeCall (path : str)
| EvTranscribeReturn (response : option str)
| EvRmtree (dir : str)
| EvChatCall (req : chat_request)
| EvChatReturn (response : option (list (option str)))
| EvPrint (text : str)
| EvMakedirs (dir : str)
| EvOpenW (path : str)
| EvFileWrite (path : str) (text : str).

(** The world outside the script. A service answers a request given the
    history of the run so far, so it may fail at any call; [None] stands
    for a raised error. The content of a chat response is the list of
    [choices[i].message.content] values, each possibly [None].
    [export_ok] tells whether an export of a chunk to a path in a format
    goes through (the encoder may not know the format, the disk may be
    full); [os_ok] tells whether the host carries out the output
    operation recorded last in the history. *)
Record Env := {
  api_key : option str;
  script_file : str;
  isfile : str -> bool;
  getsize : str -> Z;
  decode_audio : str -> decode_result;
  tmpdir : str;
  whisper : list event -> str -> option str;
  chat : list event -> chat_request -> option (list (option str));
  export_ok : list event -> str -> str -> bool;
  os_ok : list event -> bool;
  now : datetime
}.

(** What a run changes: the trace, the text files and the directories. *)
Record state := {
  trace : list event;
  files : gmap str str;
  dirs : gset str
}.

Definition M (A : Type) : Type := state -> (exception + A) * state.

Definition ret {A : Type} (a : A) : M A := fun s => (inr a, s).

Definition raise {A : Type} (e : exception) : M A := fun s => (inl e, s).

Definition bind {A B : Type} (m : M A) (k : A -> M B) : M B :=
  fun s =>
    match m s with
    | (inr a, s') => k a s'
    | (inl e, s') => (inl e, s')
    end.

Notation "'do' x <- m ; k" := (bind m (fun x => k))
  (at level 10, x name, m at level 100, k at level 200).
Notation "m ;; k" := (bind m (fun _ => k))
  (at level 100, k at level 200, right associativity).

(** [try: body except <handled>: handler] *)
Definition try_except {A : Type} (body : M A) (handled : exception -> bool)
    (handler : exception -> M A) : M A :=
  fun s =>
    match body s with
    | (inl e, s') => if handled e then handler e s' else (inl e, s')
    | r => r
    end.

Definition emit (e : event) : M unit :=
  fun s => (inr tt, {| trace := trace s ++ [e]; files := files s; dirs := dirs s |}).

Definition log (lvl : level) : M unit := emit (EvLog lvl).

(** [sys.exit(code)] *)
Definition sys_exit {A : Type} (code : Z) : M A := raise (SystemExit code).

(** The loop [for x in items: acc = body(acc, x)]; an exception leaves it. *)
Fixpoint for_each {A S : Type} (items : list A) (body : S -> A -> M S)
    (acc : S) : M S :=
  match items with
  | [] => ret acc
  | x :: rest => do acc' <- body acc x; for_each rest body acc'
  end.

(* ===================================================================== *)
(** ** The script *)
(* ===================================================================== *)

(** The temporary file of chunk [idx]: [os.path.join(tmpdir, f"chunk_{idx}{ext}")] *)
Definition chunk_path (tmp ext : str) (idx : nat) : str :=
  join2 tmp (py_lit "chunk_" ++ str_of_nat idx ++ ext).

Section Script.

Variable E : Env.

(** [_transcribe_chunk(client, path)]: one blocking request; the caller
    resumes only with the response or the error. *)
Definition _transcribe_chunk (path : str) : M str :=
  emit (EvTranscribeCall path) ;;
  fun s =>
    match whisper E (trace s) path with
    | Some text => (emit (EvTranscribeReturn (Some text)) ;; ret text) s
    | None => (emit (EvTranscribeReturn None) ;; raise APIError) s
    end.

(** [AudioSegment.from_file(path)] *)
Definition from_file (path : str) : M AudioSegment :=
  emit (EvDecode path) ;;
  match decode_audio E path with
  | Decoded d => ret (whole_recording d)
  | CouldntDecode => raise CouldntDecodeError
  | LoadFailed => raise AudioLoadError
  end.

(** [with tempfile.TemporaryDirectory() as tmpdir: body]: the directory
    is removed on every way out of the block. *)
Definition with_TemporaryDirectory {A : Type} (body : str -> M A) : M A :=
  emit (EvMkdtemp (tmpdir E)) ;;
  fun s =>
    let '(r, s') := body (tmpdir E) s in
    (r, snd (emit (EvRmtree (tmpdir E)) s')).

(** [chunk.export(chunk_path, format=fmt)]: the call is recorded, and
    it raises when the export does not go through. *)
Definition export (idx : nat) (chunk : AudioSegment) (chunk_path fmt : str)
  : M unit :=
  emit (EvExport idx chunk chunk_path fmt) ;;
  fun s =>
    if export_ok E (trace s) chunk_path fmt then (inr tt, s)
    else (inl ExportError, s).

(** The body of the chunk loop. *)
Definition chunk_step (audio : AudioSegment) (ext tmp : str)
    (transcripts : list str) (it : nat * Z) : M (list str) :=
  let '(idx, start) := it in
  let chunk := seg_slice audio start (start + AUDIO_CHUNK_LENGTH_MS) in
  let chunk_path := chunk_path tmp ext idx in
  export idx chunk chunk_path (lstrip_chars [DOT] ext) ;;
  log INFO ;;
  do t <- _transcribe_chunk chunk_path;
  ret (transcripts ++ [t]).

(** [transcribe_audio(path)]. The quotient [size_mb] is a rational: the
    division of a file size by [2^20] is exact in binary floating point,
    so the comparison with 25 is the comparison of the exact values. *)
Definition transcribe_audio (path : str) : M str :=
  if negb (isfile E path) then
    log ERROR ;; sys_exit 1
  else
    let size_mb := Qmake (getsize E path) (1024 * 1024) in
    log INFO ;;
    if Qle_bool size_mb (inject_Z MAX_FILE_SIZE_MB) then
      _transcribe_chunk path
    else
      do audio <-
        try_except (from_file path) is_Exception
          (fun _ => log ERROR ;; sys_exit 1);
      let '(base, ext) := splitext (basename path) in
      do transcripts <-
        with_TemporaryDirectory (fun tmp =>
          for_each
            (enumerate (py_range 0 (seg_len audio) AUDIO_CHUNK_LENGTH_MS))
            (chunk_step audio ext tmp) []);
      ret (join CHUNK_SEPARATOR transcripts).

(** [load_special_terms()] reads the file system of the current state. *)
Definition load_terms : M (list str) :=
  fun s => (inr (load_special_terms (script_file E) (files s)), s).

(** [client.chat.completions.create(...)] *)
Definition chat_create (req : chat_request) : M (list (option str)) :=
  emit (EvChatCall req) ;;
  fun s =>
    match chat E (trace s) req with
    | Some choices => (emit (EvChatReturn (Some choices)) ;; ret choices) s
    | None => (emit (EvChatReturn None) ;; raise APIError) s
    end.

(** [resp.choices[0].message.content.strip()] *)
Definition first_content_stripped (choices : list (option str)) : M str :=
  match choices with
  | [] => raise IndexError
  | None :: _ => raise AttributeError
  | Some content :: _ => ret (strip content)
  end.

(** [summarize_transcript(transcript, terms, prompt_type)] *)
Definition summarize_transcript (transcript : str) (terms : list str)
    (prompt_type : str) : M str :=
  let '(prompt, sys_msg) := build_prompt transcript terms prompt_type in
  try_except
    (log INFO ;;
     do resp <- chat_create
       {| req_model := py_lit "gpt-4o";
          req_system := sys_msg;
          req_user := prompt;
          req_max_tokens := 1500;
          req_temperature := 1 # 2 |};
     first_content_stripped resp)
    is_Exception
    (fun _ => log ERROR ;; sys_exit 1).

(** [datetime.strftime("%Y%m%d_%H%M")] *)
Definition strftime_run (t : datetime) : str :=
  zero_pad 4 (dt_year t) ++ zero_pad 2 (dt_month t) ++ zero_pad 2 (dt_day t)
    ++ py_lit "_" ++ zero_pad 2 (dt_hour t) ++ zero_pad 2 (dt_minute t).

(** An output operation of the host: the call is recorded, and it
    raises when the host refuses it. *)
Definition os_call (e : event) : M unit :=
  emit e ;;
  fun s => if os_ok E (trace s) then (inr tt, s) else (inl OSError, s).

(** [os.makedirs(d, exist_ok=True)]: a regular file of that name makes
    it raise; an existing directory does not. *)
Definition makedirs (d : str) : M unit :=
  os_call (EvMakedirs d) ;;
  fun s =>
    match files s !! d with
    | Some _ => (inl FileExistsError, s)
    | None => (inr tt, {| trace := trace s; files := files s;
                          dirs := {[ d ]} ∪ dirs s |})
    end.

(** [open(path, 'w')] truncates or creates the file; a directory of
    that name makes it raise. *)
Definition open_w (path : str) : M unit :=
  os_call (EvOpenW path) ;;
  fun s =>
    if decide (path ∈ dirs s) then (inl IsADirectoryError, s)
    else (inr tt, {| trace := trace s; files := <[path := []]> (files s);
                     dirs := dirs s |}).

(** [f.write(text)] appends to what the open file holds. *)
Definition file_write (path text : str) : M unit :=
  os_call (EvFileWrite path text) ;;
  fun s => (inr tt,
            {| trace := trace s;
               files := <[path := default [] (files s !! path) ++ text]> (files s);
               dirs := dirs s |}).

(** [print(a, b)] *)
Definition print2 (a b : str) : M unit :=
  os_call (EvPrint (a ++ py_lit " " ++ b ++ [LF])).

Definition HEADING_PREFIX : str := Eval vm_compute in py_lit "# 要約: ".

(** The stem the output is named after:
    [os.path.splitext(os.path.basename(audio_file))[0]]. *)
Definition output_base (audio_file : str) : str :=
  fst (splitext (basename audio_file)).

(** [main()], after argument parsing. *)
Definition main (audio_file prompt_type : str) : M unit :=
  do transcript <- transcribe_audio audio_file;
  do terms <- load_terms;
  do summary <- summarize_transcript transcript terms prompt_type;
  print2 (py_lit "=== 文字起こし ===\n") transcript ;;
  print2 (py_lit "\n=== 要約 ===\n") summary ;;
  let output_dir := strftime_run (now E) in
  makedirs output_dir ;;
  let base := output_base audio_file in
  let md_path := join2 output_dir (base ++ py_lit ".md") in
  open_w md_path ;;
  file_write md_path (HEADING_PREFIX ++ base ++ py_lit "\n\n") ;;
  file_write md_path summary ;;
  log INFO.

(** The module body: the credential check, then [main()]. *)
Definition script (audio_file prompt_type : str) : M unit :=
  match api_key E with
  | Some (_ :: _) => main audio_file prompt_type
  | _ => log ERROR ;; sys_exit 1
  end.

End Script.

(* ===================================================================== *)
(** ** Observations on runs *)
(* ===================================================================== *)

(** The size limit in bytes: [size_mb <= MAX_FILE_SIZE_MB]. *)
Definition threshold_bytes : Z := MAX_FILE_SIZE_MB * 1024 * 1024.

(** Rounded-up quotient. *)
Definition ceil_div (a b : Z) : Z := (a + b - 1) / b.

(** A run starts with an empty trace. *)
Definition initial (fs : gmap str str) (ds : gset str) : state :=
  {| trace := []; files := fs; dirs := ds |}.

Definition add_events (s : state) (evs : list event) : state :=
  {| trace := trace s ++ evs; files := files s; dirs := dirs s |}.

(** A chunk as the data model has it, read off an export event. *)
Record Chunk := {
  index : nat;
  start_offset_ms : Z;
  end_offset_ms : Z;
  temp_path : str
}.

Definition chunk_of_event (e : event) : option Chunk :=
  match e with
  | EvExport idx seg p _ =>
      Some {| index := idx; start_offset_ms := seg_start seg;
              end_offset_ms := seg_end seg; temp_path := p |}
  | _ => None
  end.

(** The chunks a run cut and handed to [export], in order. *)
Definition exported_chunks (tr : list event) : list Chunk :=
  omap chunk_of_event tr.


(** The events of one round of the chunk loop whose export goes through,
    given the response. *)
Definition chunk_events (audio : AudioSegment) (ext tmp : str)
    (it : nat * Z) (resp : option str) : list event :=
  [ EvExport (fst it)
      (seg_slice audio (snd it) (snd it + AUDIO_CHUNK_LENGTH_MS))
      (chunk_path tmp ext (fst it)) (lstrip_chars [DOT] ext);
    EvLog INFO;
    EvTranscribeCall (chunk_path tmp ext (fst it));
    EvTranscribeReturn resp ].

(** The history a chunk request is answered on. *)
Definition chunk_request_history (audio : AudioSegment) (ext tmp : str)
    (h : list event) (it : nat * Z) : list event :=
  h ++ firstn 3 (chunk_events audio ext tmp it None).

(** The history the export of a chunk is decided on. *)
Definition chunk_export_history (audio : AudioSegment) (ext tmp : str)
    (h : list event) (it : nat * Z) : list event :=
  h ++ firstn 1 (chunk_events audio ext tmp it None).

(** How the chunk loop ends: it runs out of items, or it is left by the
    error of a request or of an export. *)
Inductive loop_end :=
| LoopDone
| RequestFailed (it : nat * Z)
| ExportFailed (it : nat * Z).

Definition loop_result (transcripts : list str) (stop : loop_end)
  : exception + list str :=
  match stop with
  | LoopDone => inr transcripts
  | RequestFailed _ => inl APIError
  | ExportFailed _ => inl ExportError
  end.


(** The item a loop was at when it was left. *)
Definition left_at (stop : loop_end) : option (nat * Z) :=
  match stop with
  | LoopDone => None
  | RequestFailed it | ExportFailed it => Some it
  end.

(** The rounds of a loop that sent a request. *)
Definition requested (texts : list str) (stop : loop_end) : nat :=
  length texts + match stop with RequestFailed _ => 1 | _ => 0 end.

(** The number of rounds a loop began besides those it completed. *)
Definition begun (stop : loop_end) : nat :=
  match stop with LoopDone => 0 | _ => 1 end.

(** The chunk loop as a relation: from history [h], over the remaining
    [items], the service answered [texts] and the loop ended as [stop]
    says, leaving the events [evs]. *)
Inductive loop_run (E : Env) (audio : AudioSegment) (ext tmp : str)
  : list event -> list (nat * Z) -> list str -> loop_end
    -> list event -> Prop :=
| loop_done h :
    loop_run E audio ext tmp h [] [] LoopDone []
| loop_export_fail h it rest :
    export_ok E (chunk_export_history audio ext tmp h it)
      (chunk_path tmp ext (fst it)) (lstrip_chars [DOT] ext) = false ->
    loop_run E audio ext tmp h (it :: rest) [] (ExportFailed it)
      (firstn 1 (chunk_events audio ext tmp it None))
| loop_fail h it rest :
    export_ok E (chunk_export_history audio ext tmp h it)
      (chunk_path tmp ext (fst it)) (lstrip_chars [DOT] ext) = true ->
    whisper E (chunk_request_history audio ext tmp h it)
      (chunk_path tmp ext (fst it)) = None ->
    loop_run E audio ext tmp h (it :: rest) [] (RequestFailed it)
      (chunk_events audio ext tmp it None)
| loop_next h it rest t texts stop evs :
    export_ok E (chunk_export_history audio ext tmp h it)
      (chunk_path tmp ext (fst it)) (lstrip_chars [DOT] ext) = true ->
    whisper E (chunk_request_history audio ext tmp h it)
      (chunk_path tmp ext (fst it)) = Some t ->
    loop_run E audio ext tmp (h ++ chunk_events audio ext tmp it (Some t))
      rest texts stop evs ->
    loop_run E audio ext tmp h (it :: rest) (t :: texts) stop
      (chunk_events audio ext tmp it (Some t) ++ evs).

(** Events that belong to chunking. *)
Definition is_chunking (e : event) : bool :=
  match e with
  | EvDecode _ | EvMkdtemp _ | EvExport _ _ _ _ | EvRmtree _ => true
  | _ => false
  end.

(** Requests to either service. *)
Definition is_service_call (e : event) : bool :=
  match e with
  | EvTranscribeCall _ | EvChatCall _ => true
  | _ => false
  end.

(** The transcription requests and responses of a trace, in order. *)
Definition is_transcription (e : event) : bool :=
  match e with
  | EvTranscribeCall _ | EvTranscribeReturn _ => true
  | _ => false
  end.
Definition transcription_events (tr : list event) : list event :=
  List.filter is_transcription tr.


(** A response that makes the run fail: a raised error, or a chat
    response without a first choice or without content. *)
Definition is_failed_response (e : event) : bool :=
  match e with
  | EvTranscribeReturn None => true
  | EvChatReturn None => true
  | EvChatReturn (Some []) => true
  | EvChatReturn (Some (None :: _)) => true
  | _ => false
  end.

(** Events that show a result to the user or touch the output. *)
Definition is_output (e : event) : bool :=
  match e with
  | EvPrint _ | EvMakedirs _ | EvOpenW _ | EvFileWrite _ _ => true
  | _ => false
  end.

(** What may still happen after a failed response: removal of the
    temporary directory and the error log line. *)
Definition is_cleanup (e : event) : bool :=
  match e with
  | EvRmtree _ | EvLog ERROR => true
  | _ => false
  end.

(** The events after the first failed response of a trace. *)
Fixpoint after_failure (tr : list event) : option (list event) :=
  match tr with
  | [] => None
  | e :: rest => if is_failed_response e then Some rest else after_failure rest
  end.

Definition no_output (tr : list event) : bool :=
  forallb (fun e => negb (is_output e)) tr.

(** The chunk an item of the loop stands for. *)
Definition chunk_of_item (audio : AudioSegment) (ext tmp : str)
    (it : nat * Z) : Chunk :=
  let seg := seg_slice audio (snd it) (snd it + AUDIO_CHUNK_LENGTH_MS) in
  {| index := fst it; start_offset_ms := seg_start seg;
     end_offset_ms := seg_end seg; temp_path := chunk_path tmp ext (fst it) |}.

(** The request [summarize_transcript] sends. *)
Definition summary_request (transcript : str) (terms : list str)
    (prompt_type : str) : chat_request :=
  {| req_model := py_lit "gpt-4o";
     req_system := snd (build_prompt transcript terms prompt_type);
     req_user := fst (build_prompt transcript terms prompt_type);
     req_max_tokens := 1500;
     req_temperature := 1 # 2 |}.



(** A run of [transcribe_audio] on a small file: one request for the
    file itself, and the transcript is the response as it came. *)
Definition single_call_run (E : Env) (path : str) (s : state)
    (run : (exception + str) * state) : Prop :=
  exists resp,
    resp = whisper E (trace s ++ [EvLog INFO; EvTranscribeCall path]) path
    /\ run = (match resp with
              | Some text => inr text
              | None => inl APIError
              end,
              add_events s [EvLog INFO; EvTranscribeCall path;
                            EvTranscribeReturn resp]).


(** [s.split('\n')]: the pieces between line feeds. *)
Fixpoint split_lf (cur : str) (s : str) : list str :=
  match s with
  | [] => [cur]
  | c :: t =>
      if (c =? LF)%N then cur :: split_lf [] t else split_lf (cur ++ [c]) t
  end.

(** No line feed in [s]. *)
Definition single_line (s : str) : bool :=
  forallb (fun c => negb (c =? LF)%N) s.

(** A blank line: nothing but whitespace. *)
Definition is_blank (ln : str) : bool := forallb isspace ln.

(** A comment line: the raw line starts with [#]. *)
Definition is_comment (ln : str) : bool := startswith ln [HASH].

(** The core instruction [build_prompt] selects for a prompt type. *)
Definition prompt_core (prompt_type : str) : str :=
  fst (default (types !!! KEY_GENERAL) (types !! prompt_type)).

(** The run directory, the output file and its content. *)
Definition output_dir (E : Env) : str := strftime_run (now E).

Definition output_path (E : Env) (audio_file : str) : str :=
  join2 (output_dir E) (output_base audio_file ++ py_lit ".md").

Definition output_content (audio_file summary : str) : str :=
  (HEADING_PREFIX ++ output_base audio_file ++ py_lit "\n\n") ++ summary.

(** What [main] does from the moment the chat service has answered with
    a first choice that has content. *)
Definition success_tail (E : Env) (audio_file transcript content : str)
    (choices : list (option str)) : list event :=
  [ EvChatReturn (Some (Some content :: choices));
    EvPrint (py_lit "=== 文字起こし ===\n" ++ py_lit " " ++ transcript ++ [LF]);
    EvPrint (py_lit "\n=== 要約 ===\n" ++ py_lit " " ++ strip content ++ [LF]);
    EvMakedirs (output_dir E);
    EvOpenW (output_path E audio_file);
    EvFileWrite (output_path E audio_file)
      (HEADING_PREFIX ++ output_base audio_file ++ py_lit "\n\n");
    EvFileWrite (output_path E audio_file) (strip content);
    EvLog INFO ].

(** The statements of [main] that follow the summary: the two prints,
    the run directory, the file and the last log line. *)
Definition output_phase (E : Env) (audio_file transcript summary : str)
  : M unit :=
  print2 E (py_lit "=== 文字起こし ===\n") transcript ;;
  print2 E (py_lit "\n=== 要約 ===\n") summary ;;
  let output_dir := strftime_run (now E) in
  makedirs E output_dir ;;
  let base := output_base audio_file in
  let md_path := join2 output_dir (base ++ py_lit ".md") in
  open_w E md_path ;;
  file_write E md_path (HEADING_PREFIX ++ base ++ py_lit "\n\n") ;;
  file_write E md_path summary ;;
  log INFO.

(** The events of an output phase that nothing interrupts. *)
Definition output_events (E : Env) (audio_file transcript summary : str)
  : list event :=
  [ EvPrint (py_lit "=== 文字起こし ===\n" ++ py_lit " " ++ transcript ++ [LF]);
    EvPrint (py_lit "\n=== 要約 ===\n" ++ py_lit " " ++ summary ++ [LF]);
    EvMakedirs (output_dir E);
    EvOpenW (output_path E audio_file);
    EvFileWrite (output_path E audio_file)
      (HEADING_PREFIX ++ output_base audio_file ++ py_lit "\n\n");
    EvFileWrite (output_path E audio_file) summary;
    EvLog INFO ].

(** The errors of the output phase. *)
Definition is_output_error (e : exception) : bool :=
  match e with
  | OSError | FileExistsError | IsADirectoryError => true
  | _ => false
  end.

(** An ASCII decimal digit. *)
Definition is_digit (c : N) : bool := ((48 <=? c) && (c <=? 57))%N.

(** The chunks the loop of [transcribe_audio] is set to cut from the
    decoded audio: one per item of [enumerate(range(0, len(audio), L))]. *)
Definition scheduled_chunks (E : Env) (path : str) (audio : AudioSegment)
  : list Chunk :=
  List.map (chunk_of_item audio (snd (splitext (basename path))) (tmpdir E))
    (enumerate (py_range 0 (seg_len audio) AUDIO_CHUNK_LENGTH_MS)).

(** Events of one round of the chunk loop. *)
Definition in_chunk_loop (e : event) : bool :=
  match e with
  | EvExport _ _ _ _ | EvLog INFO | EvTranscribeCall _
  | EvTranscribeReturn _ => true
  | _ => false
  end.


(** Creation and removal of the temporary directory. *)
Definition is_tmpdir_event (e : event) : bool :=
  match e with
  | EvMkdtemp _ | EvRmtree _ => true
  | _ => false
  end.

(** Events that need the temporary directory. *)
Definition touches_tmpdir (e : event) : bool :=
  match e with
  | EvMkdtemp _ | EvRmtree _ | EvExport _ _ _ _ => true
  | _ => false
  end.

(** The files sent to the transcription service, in order. *)
Definition requested_path (e : event) : option str :=
  match e with EvTranscribeCall p => Some p | _ => None end.
Definition requested_paths (tr : list event) : list str :=
  omap requested_path tr.

(** The requests sent to the chat service, in order. *)
Definition chat_call (e : event) : option chat_request :=
  match e with EvChatCall r => Some r | _ => None end.
Definition chat_calls (tr : list event) : list chat_request :=
  omap chat_call tr.

(** Reading a decimal rendering back. *)
Definition nat_of_str (s : str) : option nat :=
  option_map Nat.of_uint
    (NilZero.uint_of_string
       (string_of_list_ascii (List.map ascii_of_N s))).


(* ===================================================================== *)
(** ** Sample worlds *)
(* ===================================================================== *)

Module Sample.

Definition audio_path : str := Eval vm_compute in py_lit "rec/standup.mp3".

Definition clock : datetime :=
  {| dt_year := 2024; dt_month := 1; dt_day := 31; dt_hour := 9;
     dt_minute := 5; dt_second := 42; dt_microsecond := 0 |}.

Definition is_return (e : event) : bool :=
  match e with EvTranscribeReturn _ => true | _ => false end.

(** The transcription service answers with the name of the file it got. *)
Definition echo_whisper (h : list event) (p : str) : option str :=
  Some (py_lit "text of " ++ basename p).

(** It answers the first request and fails from the second on. *)
Definition flaky_whisper (h : list event) (p : str) : option str :=
  if existsb is_return h then None else echo_whisper h p.

Definition chat_ok (h : list event) (r : chat_request)
  : option (list (option str)) :=
  Some [Some (py_lit "  - decided: ship\n")].

Definition chat_down (h : list event) (r : chat_request)
  : option (list (option str)) := None.

Definition world (present : bool) (size : Z) (dec : decode_result)
    (w : list event -> str -> option str)
    (c : list event -> chat_request -> option (list (option str))) : Env :=
  {| api_key := Some (py_lit "sk-test");
     script_file := py_lit "/opt/tool/meeting_summarizer.py";
     isfile := fun p => if decide (p = audio_path) then present else false;
     getsize := fun _ => size;
     decode_audio := fun _ => dec;
     tmpdir := py_lit "/tmp/tmpk3";
     whisper := w;
     chat := c;
     export_ok := fun _ _ _ => true;
     os_ok := fun _ => true;
     now := clock |}.

(** A 30 MB recording of 4,000,000 ms: three chunks. *)
Definition long_recording : Env :=
  world true 30000000 (Decoded 4000000) echo_whisper chat_ok.

(** The same recording, with a service that fails on the second chunk. *)
Definition long_recording_flaky : Env :=
  world true 30000000 (Decoded 4000000) flaky_whisper chat_ok.

(** A file of exactly 25 MB. *)
Definition short_recording : Env :=
  world true 26214400 (Decoded 60000) echo_whisper chat_ok.

Definition short_recording_chat_down : Env :=
  world true 26214400 (Decoded 60000) echo_whisper chat_down.

Definition no_recording : Env :=
  world false 0 CouldntDecode echo_whisper chat_ok.

Definition glossary_path : str :=
  Eval vm_compute in py_lit "/opt/tool/special_terms.txt".

Definition start : state := initial ∅ ∅.

(** The world [E] without the credential. *)
Definition without_key (E : Env) : Env :=
  {| api_key := None;
     script_file := script_file E;
     isfile := isfile E;
     getsize := getsize E;
     decode_audio := decode_audio E;
     tmpdir := tmpdir E;
     whisper := whisper E;
     chat := chat E;
     export_ok := export_ok E;
     os_ok := os_ok E;
     now := now E |}.

(** A 30 MB file that is not audio. *)
Definition not_audio : Env :=
  world true 30000000 CouldntDecode echo_whisper chat_ok.

(** A 30 MB file that decodes to nothing. *)
Definition silent_recording : Env :=
  world true 30000000 (Decoded 0) echo_whisper chat_ok.

(** A 30 MB recording of ten minutes. *)
Definition dense_recording : Env :=
  world true 30000000 (Decoded 600000) echo_whisper chat_ok.

(** A glossary with a comment, a blank line, an indented term and a
    duplicate. *)
Definition glossary : gmap str str :=
  {[ glossary_path := py_lit "# terms\n\n  Rocq \nstdpp\nRocq\n" ]}.

(** A second recording with the same stem, elsewhere. *)
Definition other_audio_path : str :=
  Eval vm_compute in py_lit "/srv/inbox/standup.wav".

Definition other_world : Env :=
  {| api_key := Some (py_lit "sk-test");
     script_file := py_lit "/opt/tool/meeting_summarizer.py";
     isfile := fun p => if decide (p = other_audio_path) then true else false;
     getsize := fun _ => 1000;
     decode_audio := fun _ => CouldntDecode;
     tmpdir := py_lit "/tmp/tmpq7";
     whisper := echo_whisper;
     chat := fun _ _ => Some [Some (py_lit "second summary")];
     export_ok := fun _ _ _ => true;
     os_ok := fun _ => true;
     now := {| dt_year := 2024; dt_month := 1; dt_day := 31; dt_hour := 9;
               dt_minute := 5; dt_second := 59; dt_microsecond := 7 |} |}.

(** A file system that already holds an output of the same minute. *)
Definition stale_output : gmap str str :=
  {[ py_lit "20240131_0905/standup.md" := py_lit "# stale" ]}.

(** An encoder that knows the format [mp3] and no other. *)
Definition mp3_encoder (h : list event) (p fmt : str) : bool :=
  if decide (fmt = py_lit "mp3") then true else false.

(** A 30 MB recording of ninety seconds in a container the encoder does
    not know by the name of its extension. *)
Definition m4a_path : str := Eval vm_compute in py_lit "rec/standup.m4a".

Definition m4a_recording : Env :=
  {| api_key := Some (py_lit "sk-test");
     script_file := py_lit "/opt/tool/meeting_summarizer.py";
     isfile := fun p => if decide (p = m4a_path) then true else false;
     getsize := fun _ => 30000000;
     decode_audio := fun _ => Decoded 90000;
     tmpdir := py_lit "/tmp/tmpk3";
     whisper := echo_whisper;
     chat := chat_ok;
     export_ok := mp3_encoder;
     os_ok := fun _ => true;
     now := clock |}.

(** A file system in which the name of the run directory is taken by a
    regular file. *)
Definition occupied : gmap str str :=
  {[ py_lit "20240131_0905" := py_lit "notes" ]}.

(** The world of the 25 MB file, on a host that refuses to write to a
    file once it is open. *)
Definition is_write (e : event) : bool :=
  match e with EvFileWrite _ _ => true | _ => false end.

Definition short_recording_disk_full : Env :=
  {| api_key := api_key short_recording;
     script_file := script_file short_recording;
     isfile := isfile short_recording;
     getsize := getsize short_recording;
     decode_audio := decode_audio short_recording;
     tmpdir := tmpdir short_recording;
     whisper := whisper short_recording;
     chat := chat short_recording;
     export_ok := export_ok short_recording;
     os_ok := fun h => negb (existsb is_write h);
     now := now short_recording |}.

End Sample.

(* ===================================================================== *)
(** ** The embedding on small inputs *)
(* ===================================================================== *)

Example py_lit_ascii : py_lit "a\nb" = [97; 10; 98]%N.
Proof. reflexivity. Qed.

Example py_lit_kanji : py_lit "要約" = [35201; 32004]%N.
Proof. reflexivity. Qed.

Example strip_ideographic_space :
  strip ([12288] ++ py_lit " foo \n")%N = py_lit "foo".
Proof. reflexivity. Qed.

Example str_of_nat_12 : str_of_nat 12 = py_lit "12".
Proof. reflexivity. Qed.

Example zero_pad_7 : zero_pad 2 7 = py_lit "07".
Proof. reflexivity. Qed.

Example basename_ex : basename (py_lit "rec/2024/team.sync.mp3") = py_lit "team.sync.mp3".
Proof. reflexivity. Qed.

Example splitext_ex :
  splitext (py_lit "team.sync.mp3") = (py_lit "team.sync", py_lit ".mp3").
Proof. reflexivity. Qed.

Example splitext_hidden : splitext (py_lit ".bashrc") = (py_lit ".bashrc", []).
Proof. reflexivity. Qed.

Example dirname_ex : dirname (py_lit "/opt/tool/run.py") = py_lit "/opt/tool".
Proof. reflexivity. Qed.

Example join2_ex :
  join2 (py_lit "20240131_0905") (py_lit "team.md") = py_lit "20240131_0905/team.md".
Proof. reflexivity. Qed.

Example file_lines_ex :
  file_lines (py_lit "a\n\nb") = [py_lit "a\n"; py_lit "\n"; py_lit "b"].
Proof. reflexivity. Qed.

(** An export that the encoder refuses ends the run before any request;
    the temporary directory is removed all the same. *)
Example export_refused_run :
  transcribe_audio Sample.m4a_recording Sample.m4a_path Sample.start
  = (inl ExportError,
     add_events Sample.start
       [ EvLog INFO; EvDecode Sample.m4a_path;
         EvMkdtemp (py_lit "/tmp/tmpk3");
         EvExport 0 {| seg_start := 0; seg_end := 90000 |}
           (py_lit "/tmp/tmpk3/chunk_0.m4a") (py_lit "m4a");
         EvRmtree (py_lit "/tmp/tmpk3") ]).
Proof. vm_compute. reflexivity. Qed.

(** A regular file that bears the name of the run directory: the run
    prints the transcript and the summary, and [os.makedirs] raises. *)
Example run_directory_taken :
  fst (script Sample.short_recording Sample.audio_path KEY_GENERAL
         (initial Sample.occupied ∅)) = inl FileExistsError
  /\ List.map (fun e => match e with
                        | EvPrint _ => 1 | EvMakedirs _ => 2 | _ => 0
                        end)
       (List.filter is_output
          (trace (snd (script Sample.short_recording Sample.audio_path
                         KEY_GENERAL (initial Sample.occupied ∅)))))
     = [1; 1; 2]
  /\ files (snd (script Sample.short_recording Sample.audio_path KEY_GENERAL
                   (initial Sample.occupied ∅))) = Sample.occupied.
Proof. repeat split; vm_compute; reflexivity. Qed.

(** A host that refuses the writes leaves the file it opened empty. *)
Example write_refused_leaves_empty_file :
  fst (script Sample.short_recording_disk_full Sample.audio_path KEY_GENERAL
         Sample.start) = inl OSError
  /\ files (snd (script Sample.short_recording_disk_full Sample.audio_path
                   KEY_GENERAL Sample.start))
       !! py_lit "20240131_0905/standup.md" = Some [].
Proof. split; vm_compute; reflexivity. Qed.

(* ===================================================================== *)
(** ** The chunk schedule *)
(* ===================================================================== *)

Section Schedule.

Variable step : Z.
Hypothesis step_pos : 0 < step.

Lemma ceil_div_bounds (a : Z) :
  (ceil_div a step - 1) * step < a <= ceil_div a step * step.
Proof.
  unfold ceil_div.
  pose proof (Z.div_mod (a + step - 1) step ltac:(lia)) as Hdm.
  pose proof (Z.mod_pos_bound (a + step - 1) step step_pos) as Hmod.
  nia.
Qed.

Lemma ceil_div_unique (a n : Z) :
  (n - 1) * step < a <= n * step -> n = ceil_div a step.
Proof.
  intros Hn. pose proof (ceil_div_bounds a) as Hc. nia.
Qed.

Lemma ceil_div_step (a : Z) : ceil_div (a + step) step = ceil_div a step + 1.
Proof.
  unfold ceil_div.
  replace (a + step + step - 1) with (a + step - 1 + 1 * step) by lia.
  rewrite Z.div_add by lia. reflexivity.
Qed.

Lemma ceil_div_nonpos (a : Z) : a <= 0 -> ceil_div a step <= 0.
Proof.
  intros Ha. pose proof (ceil_div_bounds a) as Hc. nia.
Qed.

Lemma ceil_div_le_floor_succ (a : Z) : ceil_div a step <= a / step + 1.
Proof.
  pose proof (ceil_div_bounds a) as Hc.
  pose proof (Z.div_mod a step ltac:(lia)) as Hdm.
  pose proof (Z.mod_pos_bound a step step_pos) as Hmod.
  nia.
Qed.

(** With enough fuel the loop yields [cur], [cur + step], ... for every
    value below [stop], and their number is the rounded-up quotient. *)
Lemma range_loop_spec (fuel : nat) : forall cur stop,
  (Z.to_nat (ceil_div (stop - cur) step) <= fuel)%nat ->
  range_loop fuel cur stop step
  = List.map (fun k => cur + Z.of_nat k * step)
      (seq 0 (Z.to_nat (ceil_div (stop - cur) step))).
Proof.
  induction fuel as [|fuel IH]; intros cur stop Hfuel.
  - replace (Z.to_nat (ceil_div (stop - cur) step)) with 0%nat by lia.
    reflexivity.
  - cbn [range_loop]. destruct (Z.ltb_spec cur stop) as [Hlt|Hge].
    + pose proof (ceil_div_step (stop - (cur + step))) as Hs.
      replace (stop - (cur + step) + step) with (stop - cur) in Hs by lia.
      pose proof (ceil_div_bounds (stop - (cur + step))) as Hb.
      assert (0 <= ceil_div (stop - (cur + step)) step) as Hnn by nia.
      rewrite Hs.
      replace (Z.to_nat (ceil_div (stop - (cur + step)) step + 1))
        with (S (Z.to_nat (ceil_div (stop - (cur + step)) step))) by lia.
      rewrite IH by lia.
      cbn [seq List.map]. f_equal; [lia|].
      rewrite <- seq_shift, List.map_map.
      apply List.map_ext. intros k. lia.
    + pose proof (ceil_div_nonpos (stop - cur) ltac:(lia)) as Hc.
      replace (Z.to_nat (ceil_div (stop - cur) step)) with 0%nat by lia.
      reflexivity.
Qed.

(** The fuel of [py_range] is never what ends the loop. *)
Lemma range_loop_more_fuel (start stop : Z) (extra : nat) :
  range_loop (S (Z.to_nat ((stop - start) / step)) + extra) start stop step
  = py_range start stop step.
Proof.
  unfold py_range.
  pose proof (ceil_div_le_floor_succ (stop - start)) as Hle.
  rewrite !range_loop_spec by lia. reflexivity.
Qed.

Lemma py_range_spec (start stop : Z) :
  py_range start stop step
  = List.map (fun k => start + Z.of_nat k * step)
      (seq 0 (Z.to_nat (ceil_div (stop - start) step))).
Proof.
  unfold py_range. apply range_loop_spec.
  pose proof (ceil_div_le_floor_succ (stop - start)). lia.
Qed.

End Schedule.

Lemma enumerate_from_map_seq {A : Type} (f : nat -> A) (n : nat) : forall i,
  enumerate_from i (List.map f (seq i n))
  = List.map (fun k => (k, f k)) (seq i n).
Proof.
  induction n as [|n IH]; intros i; [reflexivity|].
  cbn. f_equal. apply IH.
Qed.

(** The items the chunk loop runs over, for a recording of [D] ms. *)
Lemma schedule_spec (D : Z) :
  enumerate (py_range 0 D AUDIO_CHUNK_LENGTH_MS)
  = List.map (fun k => (k, Z.of_nat k * AUDIO_CHUNK_LENGTH_MS))
      (seq 0 (Z.to_nat (ceil_div D AUDIO_CHUNK_LENGTH_MS))).
Proof.
  rewrite py_range_spec by reflexivity.
  rewrite Z.sub_0_r. unfold enumerate.
  apply (enumerate_from_map_seq (fun k => 0 + Z.of_nat k * AUDIO_CHUNK_LENGTH_MS)).
Qed.

(* ===================================================================== *)
(** ** Running the script: the shape of every run *)
(* ===================================================================== *)

Lemma add_events_nil (s : state) : add_events s [] = s.
Proof. destruct s. unfold add_events. cbn. by rewrite app_nil_r. Qed.

Lemma add_events_app (s : state) (a b : list event) :
  add_events (add_events s a) b = add_events s (a ++ b).
Proof. unfold add_events. cbn. by rewrite app_assoc. Qed.

Lemma emit_then {A : Type} (e : event) (k : M A) (s : state) :
  (emit e ;; k) s = k (add_events s [e]).
Proof. reflexivity. Qed.

Lemma log_then {A : Type} (lvl : level) (k : M A) (s : state) :
  (log lvl ;; k) s = k (add_events s [EvLog lvl]).
Proof. reflexivity. Qed.

Section Runs.

Variable E : Env.

(** One request to the transcription service. *)
Lemma transcribe_chunk_run (path : str) (s : state) :
  _transcribe_chunk E path s
  = match whisper E (trace s ++ [EvTranscribeCall path]) path with
    | Some text =>
        (inr text,
         add_events s [EvTranscribeCall path; EvTranscribeReturn (Some text)])
    | None =>
        (inl APIError,
         add_events s [EvTranscribeCall path; EvTranscribeReturn None])
    end.
Proof.
  unfold _transcribe_chunk. rewrite emit_then. cbn [add_events trace].
  destruct (whisper E (trace s ++ [EvTranscribeCall path]) path);
    rewrite emit_then, add_events_app; reflexivity.
Qed.

(** An export: the event, then the verdict of the environment. *)
Lemma export_then {A : Type} (idx : nat) (chunk : AudioSegment)
    (chunk_path fmt : str) (k : M A) (s : state) :
  (export E idx chunk chunk_path fmt ;; k) s
  = if export_ok E (trace s ++ [EvExport idx chunk chunk_path fmt])
         chunk_path fmt
    then k (add_events s [EvExport idx chunk chunk_path fmt])
    else (inl ExportError, add_events s [EvExport idx chunk chunk_path fmt]).
Proof.
  unfold export, bind, emit. cbn [add_events trace fst snd].
  destruct (export_ok E _ _ _); reflexivity.
Qed.

(** Every run of the chunk loop is a [loop_run]. *)
Lemma for_each_chunks (audio : AudioSegment) (ext tmp : str)
    (items : list (nat * Z)) : forall (acc : list str) (s : state),
  exists texts stop evs,
    loop_run E audio ext tmp (trace s) items texts stop evs
    /\ for_each items (chunk_step E audio ext tmp) acc s
       = (loop_result (acc ++ texts) stop, add_events s evs).
Proof.
  induction items as [|[idx start] rest IH]; intros acc s.
  - exists [], LoopDone, []. split; [constructor|].
    cbn. by rewrite app_nil_r, add_events_nil.
  - cbn [for_each]. unfold bind at 1. unfold chunk_step at 1.
    rewrite export_then.
    destruct (export_ok E _ _ _) eqn:Hx.
    + rewrite log_then, add_events_app.
      unfold bind at 1. rewrite transcribe_chunk_run, add_events_app.
      cbn [add_events trace]. rewrite <- app_assoc. cbn [app].
      destruct (whisper E _ _) as [t|] eqn:Hw.
      * destruct (IH (acc ++ [t])
          (add_events s (chunk_events audio ext tmp (idx, start) (Some t))))
          as (texts & stop & evs & Hrun & Heq).
        exists (t :: texts), stop,
          (chunk_events audio ext tmp (idx, start) (Some t) ++ evs).
        split.
        -- apply loop_next; [exact Hx | exact Hw | exact Hrun].
        -- unfold ret. rewrite add_events_app.
           change (for_each rest (chunk_step E audio ext tmp) (acc ++ [t])
                     (add_events s
                        (chunk_events audio ext tmp (idx, start) (Some t)))
                   = (loop_result (acc ++ t :: texts) stop,
                      add_events s
                        (chunk_events audio ext tmp (idx, start) (Some t)
                           ++ evs))).
           rewrite Heq, add_events_app, <- app_assoc. reflexivity.
      * exists [], (RequestFailed (idx, start)),
          (chunk_events audio ext tmp (idx, start) None).
        split; [apply loop_fail; [exact Hx | exact Hw] | reflexivity].
    + exists [], (ExportFailed (idx, start)),
        (firstn 1 (chunk_events audio ext tmp (idx, start) None)).
      split; [apply loop_export_fail; exact Hx | reflexivity].
Qed.

(** The size test of [transcribe_audio], in bytes. *)
Lemma size_gate (size : Z) :
  Qle_bool (Qmake size (1024 * 1024)) (inject_Z MAX_FILE_SIZE_MB)
  = (size <=? threshold_bytes).
Proof.
  unfold Qle_bool, inject_Z. cbn [Qnum Qden]. rewrite Z.mul_1_r. reflexivity.
Qed.

Lemma transcribe_missing (path : str) (s : state) :
  isfile E path = false ->
  transcribe_audio E path s = (inl (SystemExit 1), add_events s [EvLog ERROR]).
Proof. intros Hf. unfold transcribe_audio. rewrite Hf. reflexivity. Qed.

Lemma transcribe_small (path : str) (s : state) :
  isfile E path = true ->
  getsize E path <= threshold_bytes ->
  transcribe_audio E path s
  = match whisper E (trace s ++ [EvLog INFO; EvTranscribeCall path]) path with
    | Some text =>
        (inr text,
         add_events s [EvLog INFO; EvTranscribeCall path;
                       EvTranscribeReturn (Some text)])
    | None =>
        (inl APIError,
         add_events s [EvLog INFO; EvTranscribeCall path;
                       EvTranscribeReturn None])
    end.
Proof.
  intros Hf Hsize. unfold transcribe_audio. rewrite Hf. cbn [negb].
  rewrite log_then, size_gate.
  destruct (Z.leb_spec (getsize E path) threshold_bytes) as [_|Hgt]; [|lia].
  rewrite transcribe_chunk_run. cbn [add_events trace].
  rewrite <- app_assoc. cbn [app].
  destruct (whisper E _ path); rewrite add_events_app; reflexivity.
Qed.

Lemma transcribe_undecodable (path : str) (s : state) :
  isfile E path = true ->
  threshold_bytes < getsize E path ->
  (forall D, decode_audio E path <> Decoded D) ->
  transcribe_audio E path s
  = (inl (SystemExit 1),
     add_events s [EvLog INFO; EvDecode path; EvLog ERROR]).
Proof.
  intros Hf Hsize Hdec. unfold transcribe_audio. rewrite Hf. cbn [negb].
  rewrite log_then, size_gate.
  destruct (Z.leb_spec (getsize E path) threshold_bytes) as [Hle|_]; [lia|].
  unfold bind at 1. unfold try_except, from_file. rewrite emit_then.
  destruct (decode_audio E path) as [D| |] eqn:Hd;
    [exfalso; by apply (Hdec D) | |];
    unfold raise; cbn [is_Exception]; rewrite log_then;
    unfold sys_exit, raise; rewrite !add_events_app; reflexivity.
Qed.

(** A run that reaches the chunk loop: the loop's events sit between the
    creation and the removal of the temporary directory. *)
Lemma transcribe_chunked (path : str) (D : Z) (s : state) :
  isfile E path = true ->
  threshold_bytes < getsize E path ->
  decode_audio E path = Decoded D ->
  exists texts stop evs,
    loop_run E (whole_recording D) (snd (splitext (basename path))) (tmpdir E)
      (trace s ++ [EvLog INFO; EvDecode path; EvMkdtemp (tmpdir E)])
      (enumerate (py_range 0 D AUDIO_CHUNK_LENGTH_MS)) texts stop evs
    /\ transcribe_audio E path s
       = (match loop_result texts stop with
          | inr transcripts => inr (join CHUNK_SEPARATOR transcripts)
          | inl e => inl e
          end,
          add_events s
            ([EvLog INFO; EvDecode path; EvMkdtemp (tmpdir E)]
               ++ evs ++ [EvRmtree (tmpdir E)])).
Proof.
  intros Hf Hsize Hdec.
  destruct (for_each_chunks (whole_recording D)
              (snd (splitext (basename path))) (tmpdir E)
              (enumerate (py_range 0 D AUDIO_CHUNK_LENGTH_MS)) []
              (add_events s [EvLog INFO; EvDecode path; EvMkdtemp (tmpdir E)]))
    as (texts & stop & evs & Hrun & Heq).
  exists texts, stop, evs. split; [exact Hrun|].
  unfold transcribe_audio. rewrite Hf. cbn [negb].
  rewrite log_then, size_gate.
  destruct (Z.leb_spec (getsize E path) threshold_bytes) as [Hle|_]; [lia|].
  unfold bind at 1. unfold try_except, from_file. rewrite emit_then, Hdec.
  unfold ret at 1. rewrite add_events_app. cbn [app].
  destruct (splitext (basename path)) as [base ext] eqn:Hsplit.
  cbn [snd] in *.
  unfold bind at 1. unfold with_TemporaryDirectory. rewrite emit_then.
  rewrite add_events_app. cbn [app].
  replace (seg_len (whole_recording D)) with D
    by (unfold seg_len, whole_recording; cbn; lia).
  rewrite Heq. unfold emit. cbn [snd add_events trace files dirs].
  unfold add_events. cbn [trace files dirs].
  destruct stop; unfold ret; cbn; rewrite <- !app_assoc; reflexivity.
Qed.

End Runs.

(* ===================================================================== *)
(** ** What the chunk loop leaves in the trace *)
(* ===================================================================== *)

Section LoopFacts.

Variables (E : Env) (audio : AudioSegment) (ext tmp : str).

Lemma exported_chunks_app (a b : list event) :
  exported_chunks (a ++ b) = exported_chunks a ++ exported_chunks b.
Proof. apply omap_app. Qed.


Lemma after_failure_app (a b : list event) :
  after_failure (a ++ b)
  = match after_failure a with
    | Some post => Some (post ++ b)
    | None => after_failure b
    end.
Proof.
  induction a as [|e a IH]; [reflexivity|].
  cbn. destruct (is_failed_response e); [reflexivity | exact IH].
Qed.

Lemma no_output_app (a b : list event) :
  no_output (a ++ b) = no_output a && no_output b.
Proof. apply forallb_app. Qed.

(** A loop exports the chunks of its schedule in order, up to and
    including the one it is left at; all of them if it is not left. *)
Lemma loop_run_exports h items texts stop evs :
  loop_run E audio ext tmp h items texts stop evs ->
  exported_chunks evs
  = List.map (chunk_of_item audio ext tmp)
      (firstn (length texts + begun stop) items)
  /\ match left_at stop with
     | Some it => items !! length texts = Some it
     | None => length texts = length items
     end.
Proof.
  intros Hrun.
  induction Hrun as [h|h it rest Hx|h it rest Hx Hw
                     |h it rest t texts stop evs Hx Hw Hrun IH].
  - split; reflexivity.
  - split; reflexivity.
  - split; reflexivity.
  - destruct IH as [IHev IHlen].
    rewrite exported_chunks_app, IHev. split; [reflexivity|].
    destruct (left_at stop); cbn; [exact IHlen | by rewrite IHlen].
Qed.



(** The loop prints and writes nothing; a failed response is the last
    thing in it, and there is one exactly when a request failed. *)
Lemma loop_run_quiet h items texts stop evs :
  loop_run E audio ext tmp h items texts stop evs ->
  no_output evs = true
  /\ after_failure evs
     = match stop with RequestFailed _ => Some [] | _ => None end.
Proof.
  intros Hrun.
  induction Hrun as [h|h it rest Hx|h it rest Hx Hw
                     |h it rest t texts stop evs Hx Hw Hrun IH].
  - split; reflexivity.
  - split; reflexivity.
  - split; reflexivity.
  - destruct IH as [IHout IHfail].
    rewrite no_output_app, after_failure_app, IHout, IHfail.
    split; reflexivity.
Qed.

End LoopFacts.

(* ===================================================================== *)
(** ** Chunks partition the recording *)
(* ===================================================================== *)

Lemma map_is_fmap {A B : Type} (f : A -> B) (l : list A) :
  List.map f l = f <$> l.
Proof. induction l as [|x l IH]; [reflexivity | cbn; by rewrite IH]. Qed.

Section Partition.

Variables (tmp ext : str) (D : Z).
Hypothesis D_pos : 0 < D.

Let L := AUDIO_CHUNK_LENGTH_MS.
Let n := Z.to_nat (ceil_div D L).









End Partition.






(* ===================================================================== *)
(** ** The size gate and the order of transcription requests *)
(* ===================================================================== *)

(** C2. A file of at most 25 MB is sent to the transcription service
    whole, in exactly one request, and the run has no chunking event: no
    decode, no temporary directory, no export, hence no chunk. Chunking
    needs a size strictly above the threshold. *)
Theorem small_file_single_call (E : Env) (path : str)
    (fs : gmap str str) (ds : gset str) :
  isfile E path = true ->
  getsize E path <= threshold_bytes ->
  let run := transcribe_audio E path (initial fs ds) in
  threshold_bytes = 25 * 1024 * 1024
  /\ single_call_run E path (initial fs ds) run
  /\ List.filter is_service_call (trace (snd run)) = [EvTranscribeCall path]
  /\ List.filter is_chunking (trace (snd run)) = []
  /\ exported_chunks (trace (snd run)) = [].
Proof.
  intros Hf Hsize run. split; [reflexivity|].
  subst run. rewrite (transcribe_small E path (initial fs ds) Hf Hsize).
  cbn [initial trace app].
  split.
  - eexists. split; [reflexivity|].
    cbn [initial trace app]. destruct (whisper E _ path); reflexivity.
  - destruct (whisper E _ path); repeat split; reflexivity.
Qed.

Lemma small_file_single_call_witness :
  getsize Sample.short_recording Sample.audio_path = threshold_bytes
  /\ single_call_run Sample.short_recording Sample.audio_path Sample.start
       (transcribe_audio Sample.short_recording Sample.audio_path Sample.start)
  /\ exported_chunks (trace (snd
        (transcribe_audio Sample.short_recording Sample.audio_path
           Sample.start))) = [].
Proof.
  split; [reflexivity|].
  pose proof (small_file_single_call Sample.short_recording Sample.audio_path
                ∅ ∅ eq_refl ltac:(vm_compute; discriminate)) as H.
  cbv zeta in H. destruct H as (_ & Hone & _ & _ & Hnone).
  split; [exact Hone | exact Hnone].
Defined.

(** C8. When the audio path is not an existing file, [transcribe_audio]
    logs the error and exits with status 1 at once: the run has no
    decoding, no chunking and no request to a service, and the script
    ends there. *)
Theorem missing_file_fails_fast (E : Env) (path prompt_type : str)
    (fs : gmap str str) (ds : gset str) :
  isfile E path = false ->
  transcribe_audio E path (initial fs ds)
  = (inl (SystemExit 1), add_events (initial fs ds) [EvLog ERROR])
  /\ (forall c k, api_key E = Some (c :: k) ->
        script E path prompt_type (initial fs ds)
        = (inl (SystemExit 1), add_events (initial fs ds) [EvLog ERROR])).
Proof.
  intros Hf. split; [by apply transcribe_missing|].
  intros c k Hkey. unfold script. rewrite Hkey.
  unfold main, bind. by rewrite (transcribe_missing E path _ Hf).
Qed.

Lemma missing_file_fails_fast_witness :
  isfile Sample.no_recording Sample.audio_path = false
  /\ script Sample.no_recording Sample.audio_path KEY_GENERAL Sample.start
     = (inl (SystemExit 1), add_events Sample.start [EvLog ERROR]).
Proof.
  split; [reflexivity|].
  exact (proj2 (missing_file_fails_fast Sample.no_recording Sample.audio_path
                  KEY_GENERAL ∅ ∅ eq_refl) _ _ eq_refl).
Defined.





(* ===================================================================== *)
(** ** Stripping and the glossary loader *)
(* ===================================================================== *)

Section Strip.

Variable p : N -> bool.

Lemma lstrip_by_nil (s : str) : lstrip_by p s = [] <-> forallb p s = true.
Proof.
  induction s as [|c s IH]; [done|].
  cbn. destruct (p c); [exact IH | split; discriminate].
Qed.

Lemma lstrip_by_head (s : str) (c : N) (t : str) :
  lstrip_by p s = c :: t -> p c = false.
Proof.
  induction s as [|x s IH]; [discriminate|].
  cbn. destruct (p x) eqn:Hx; [exact IH | congruence].
Qed.

Lemma lstrip_by_keep (l : str) (c : N) (r : str) :
  p c = false -> lstrip_by p (l ++ c :: r) = lstrip_by p l ++ c :: r.
Proof.
  intros Hc. induction l as [|x l IH]; cbn; [by rewrite Hc|].
  destruct (p x); [exact IH | reflexivity].
Qed.

Lemma rstrip_by_cons_keep (c : N) (t : str) :
  p c = false -> rstrip_by p (c :: t) = c :: rstrip_by p t.
Proof.
  intros Hc. unfold rstrip_by. cbn [rev].
  rewrite (lstrip_by_keep _ _ [] Hc), rev_app_distr. reflexivity.
Qed.

Lemma rstrip_by_nil : rstrip_by p [] = [].
Proof. reflexivity. Qed.

End Strip.

(** [ln.strip()] is falsy exactly on blank lines. *)
Lemma strip_truthy (ln : str) : truthy (strip ln) = negb (is_blank ln).
Proof.
  unfold strip, is_blank.
  destruct (lstrip_by isspace ln) as [|c t] eqn:Hl.
  - apply lstrip_by_nil in Hl. by rewrite Hl.
  - rewrite (rstrip_by_cons_keep _ _ _ (lstrip_by_head _ _ _ _ Hl)).
    destruct (forallb isspace ln) eqn:Hall; [|reflexivity].
    apply lstrip_by_nil in Hall. congruence.
Qed.

Lemma keep_line_spec (ln : str) :
  keep_line ln = negb (is_blank ln) && negb (is_comment ln).
Proof.
  change (truthy (strip ln) && negb (is_comment ln)
          = negb (is_blank ln) && negb (is_comment ln)).
  by rewrite strip_truthy.
Qed.

Lemma terms_of_lines_app (l1 l2 : list str) :
  terms_of_lines (l1 ++ l2) = terms_of_lines l1 ++ terms_of_lines l2.
Proof. unfold terms_of_lines. by rewrite List.filter_app, List.map_app. Qed.

Lemma terms_nonempty (lines : list str) :
  Forall (fun t => t <> []) (terms_of_lines lines).
Proof.
  unfold terms_of_lines. induction lines as [|ln lines IH]; [constructor|].
  cbn [List.filter]. destruct (keep_line ln) eqn:Hk; [|exact IH].
  cbn [List.map]. constructor; [|exact IH].
  unfold keep_line in Hk. apply andb_true_iff in Hk as [Ht _].
  intros Hnil. by rewrite Hnil in Ht.
Qed.

(** C5. [load_special_terms] returns the empty list when the glossary
    file does not exist; otherwise it returns, in file order and with
    duplicates kept, the stripped form of every line that is neither
    blank nor a comment (a line starting with [#]). On the file
    ["# comment\n\nfoo\nbar\n"] the result is exactly [foo, bar]. *)
Theorem load_special_terms_spec (script_file : str) (fs : gmap str str) :
  load_special_terms script_file fs
  = match fs !! SPECIAL_TERMS_FILE script_file with
    | None => []
    | Some content =>
        List.map strip
          (List.filter (fun ln => negb (is_blank ln) && negb (is_comment ln))
             (file_lines content))
    end
  /\ load_special_terms script_file (delete (SPECIAL_TERMS_FILE script_file) fs)
     = []
  /\ load_special_terms script_file
       (<[SPECIAL_TERMS_FILE script_file := py_lit "# comment\n\nfoo\nbar\n"]> fs)
     = [py_lit "foo"; py_lit "bar"]
  /\ load_special_terms script_file
       (<[SPECIAL_TERMS_FILE script_file := py_lit "b\na\nb\n"]> fs)
     = [py_lit "b"; py_lit "a"; py_lit "b"]
  /\ Forall (fun t => t <> []) (load_special_terms script_file fs).
Proof.
  unfold load_special_terms. repeat apply conj.
  - destruct (fs !! SPECIAL_TERMS_FILE script_file); [|reflexivity].
    unfold terms_of_lines. f_equal. apply List.filter_ext, keep_line_spec.
  - by rewrite lookup_delete_eq.
  - by rewrite lookup_insert_eq.
  - by rewrite lookup_insert_eq.
  - destruct (fs !! SPECIAL_TERMS_FILE script_file);
      [apply terms_nonempty | constructor].
Qed.

(** C10. The comment test looks at the raw line, so a line of leading
    whitespace followed by [#] is not dropped: it is kept and its
    stripped form, which starts with [#], becomes a glossary term. *)
Theorem indented_comment_is_a_term (ws rest : str) :
  ws <> [] ->
  forallb isspace ws = true ->
  let ln := ws ++ HASH :: rest in
  is_comment ln = false
  /\ keep_line ln = true
  /\ strip ln = HASH :: rstrip_by isspace rest
  /\ (forall before after,
        terms_of_lines (before ++ ln :: after)
        = terms_of_lines before ++ strip ln :: terms_of_lines after).
Proof.
  intros Hne Hws ln.
  assert (strip ln = HASH :: rstrip_by isspace rest) as Hstrip.
  { unfold strip, ln. rewrite (lstrip_by_keep isspace ws HASH rest eq_refl).
    apply lstrip_by_nil in Hws. rewrite Hws. cbn [app].
    by rewrite rstrip_by_cons_keep. }
  assert (is_comment ln = false) as Hc.
  { unfold is_comment, ln. destruct ws as [|w ws']; [done|].
    cbn [forallb] in Hws. apply andb_true_iff in Hws as [Hw _].
    cbn [app startswith].
    destruct (N.eqb_spec HASH w) as [<-|]; [discriminate | reflexivity]. }
  assert (keep_line ln = true) as Hk.
  { change (truthy (strip ln) && negb (is_comment ln) = true).
    by rewrite Hstrip, Hc. }
  repeat apply conj; [exact Hc | exact Hk | exact Hstrip |].
  intros before after.
  change (before ++ ln :: after) with (before ++ [ln] ++ after).
  rewrite !terms_of_lines_app. unfold terms_of_lines at 2.
  cbn [List.filter]. by rewrite Hk.
Qed.

Lemma indented_comment_is_a_term_witness :
  strip (py_lit "  # note\n") = py_lit "# note"
  /\ (forall sf fs,
        load_special_terms sf
          (<[SPECIAL_TERMS_FILE sf := py_lit "# top\n  # note\nfoo\n"]> fs)
        = [py_lit "# note"; py_lit "foo"]).
Proof.
  pose proof (indented_comment_is_a_term (py_lit "  ") (py_lit " note\n")
                ltac:(discriminate) eq_refl) as H.
  cbv zeta in H. destruct H as (_ & _ & Hstrip & Hterms).
  split; [exact Hstrip|].
  intros sf fs. unfold load_special_terms. rewrite lookup_insert_eq.
  exact (Hterms [py_lit "# top\n"] [py_lit "foo\n"]).
Defined.

(* ===================================================================== *)
(** ** The prompt builder *)
(* ===================================================================== *)

Lemma types_general : types !! KEY_GENERAL = Some (GENERAL_CORE, GENERAL_SYS).
Proof.
  unfold types.
  rewrite lookup_insert_ne by discriminate.
  rewrite lookup_insert_ne by discriminate.
  apply lookup_insert_eq.
Qed.

Lemma types_general_total : types !!! KEY_GENERAL = (GENERAL_CORE, GENERAL_SYS).
Proof. by rewrite lookup_total_alt, types_general. Qed.

Lemma types_meeting : types !! KEY_MEETING = Some (MEETING_CORE, MEETING_SYS).
Proof. unfold types. apply lookup_insert_eq. Qed.

Lemma types_presentation :
  types !! KEY_PRESENTATION = Some (PRESENTATION_CORE, PRESENTATION_SYS).
Proof.
  unfold types. rewrite lookup_insert_ne by discriminate.
  apply lookup_insert_eq.
Qed.

Lemma types_unknown (prompt_type : str) :
  prompt_type <> KEY_GENERAL ->
  prompt_type <> KEY_MEETING ->
  prompt_type <> KEY_PRESENTATION ->
  types !! prompt_type = None.
Proof.
  intros Hg Hm Hp. unfold types.
  rewrite !lookup_insert_ne by congruence. apply lookup_empty.
Qed.

(** The entry [build_prompt] works with is one of the three of the table. *)
Lemma selected_entry (prompt_type : str) :
  let entry := default (types !!! KEY_GENERAL) (types !! prompt_type) in
  entry = (GENERAL_CORE, GENERAL_SYS)
  \/ entry = (MEETING_CORE, MEETING_SYS)
  \/ entry = (PRESENTATION_CORE, PRESENTATION_SYS).
Proof.
  cbv zeta. rewrite types_general_total.
  destruct (decide (prompt_type = KEY_GENERAL)) as [->|Hg];
    [rewrite types_general; by left|].
  destruct (decide (prompt_type = KEY_MEETING)) as [->|Hm];
    [rewrite types_meeting; right; by left|].
  destruct (decide (prompt_type = KEY_PRESENTATION)) as [->|Hp];
    [rewrite types_presentation; right; by right|].
  rewrite types_unknown by assumption. by left.
Qed.

(** C6. A prompt type outside general, meeting and presentation gives
    the very pair of prompt and system message that [general] gives;
    [build_prompt] is a total function, so the fallback raises nothing. *)
Theorem unknown_prompt_type_is_general (transcript : str) (terms : list str)
    (prompt_type : str) :
  prompt_type <> KEY_GENERAL ->
  prompt_type <> KEY_MEETING ->
  prompt_type <> KEY_PRESENTATION ->
  build_prompt transcript terms prompt_type
  = build_prompt transcript terms KEY_GENERAL
  /\ snd (build_prompt transcript terms prompt_type) = GENERAL_SYS.
Proof.
  intros Hg Hm Hp. unfold build_prompt.
  rewrite (types_unknown _ Hg Hm Hp), types_general, types_general_total.
  split; reflexivity.
Qed.

Lemma unknown_prompt_type_is_general_witness :
  build_prompt (py_lit "hello") [py_lit "Rocq"] (py_lit "unknown_value")
  = build_prompt (py_lit "hello") [py_lit "Rocq"] (py_lit "general")
  /\ build_prompt (py_lit "hello") [py_lit "Rocq"] (py_lit "meeting")
     <> build_prompt (py_lit "hello") [py_lit "Rocq"] (py_lit "general").
Proof.
  split.
  - exact (proj1 (unknown_prompt_type_is_general (py_lit "hello")
      [py_lit "Rocq"] (py_lit "unknown_value")
      ltac:(discriminate) ltac:(discriminate) ltac:(discriminate))).
  - unfold build_prompt.
    change (py_lit "meeting") with KEY_MEETING.
    change (py_lit "general") with KEY_GENERAL.
    rewrite types_meeting, types_general. discriminate.
Defined.

(** Searching for a text without line feed: a line feed in the haystack
    separates two searches. *)
Lemma startswith_app_lf (h a b : str) :
  single_line h = true ->
  startswith (a ++ LF :: b) h = startswith a h.
Proof.
  revert a. induction h as [|c h IH]; intros a Hh.
  - by destruct a.
  - cbn [single_line forallb] in Hh. apply andb_true_iff in Hh as [Hc Hh].
    destruct a as [|x a]; cbn [app startswith].
    + destruct (N.eqb_spec c LF) as [->|]; [discriminate | reflexivity].
    + by rewrite (IH a Hh).
Qed.

Lemma contains_app_lf (h a b : str) :
  truthy h = true ->
  single_line h = true ->
  contains (a ++ LF :: b) h = contains a h || contains b h.
Proof.
  intros Hne Hh. induction a as [|x a IH].
  - pose proof (startswith_app_lf h [] b Hh) as Hs.
    cbn [app contains] in Hs |- *. rewrite Hs.
    destruct h; [discriminate | reflexivity].
  - cbn [app contains].
    change (x :: a ++ LF :: b) with ((x :: a) ++ LF :: b).
    rewrite (startswith_app_lf h (x :: a) b Hh), IH.
    by rewrite orb_assoc.
Qed.

(** Splitting at line feeds gives back pieces that have none. *)
Lemma split_lf_app (a : str) : forall cur b,
  single_line a = true ->
  split_lf cur (a ++ LF :: b) = (cur ++ a) :: split_lf [] b.
Proof.
  induction a as [|x a IH]; intros cur b Ha.
  - cbn. by rewrite app_nil_r.
  - cbn [single_line forallb] in Ha. apply andb_true_iff in Ha as [Hx Ha].
    cbn [app split_lf]. apply negb_true_iff in Hx. rewrite Hx.
    rewrite (IH _ _ Ha), <- app_assoc. reflexivity.
Qed.

Lemma split_lf_single (a : str) : forall cur,
  single_line a = true -> split_lf cur a = [cur ++ a].
Proof.
  induction a as [|x a IH]; intros cur Ha.
  - cbn. by rewrite app_nil_r.
  - cbn [single_line forallb] in Ha. apply andb_true_iff in Ha as [Hx Ha].
    cbn [split_lf]. apply negb_true_iff in Hx. rewrite Hx.
    rewrite (IH _ Ha), <- app_assoc. reflexivity.
Qed.

Lemma split_lf_join (parts : list str) :
  parts <> [] ->
  forallb single_line parts = true ->
  split_lf [] (join [LF] parts) = parts.
Proof.
  induction parts as [|a parts IH]; [done|]. intros _ Hall.
  cbn [forallb] in Hall. apply andb_true_iff in Hall as [Ha Hall].
  destruct parts as [|b parts].
  - cbn [join]. by apply split_lf_single.
  - change (join [LF] (a :: b :: parts)) with (a ++ LF :: join [LF] (b :: parts)).
    rewrite (split_lf_app a [] _ Ha). cbn [app]. f_equal.
    apply IH; [discriminate | exact Hall].
Qed.

Lemma heading_only_from_transcript (core transcript : str) :
  contains core TERM_HEADING = false ->
  contains (core ++ [LF] ++ [] ++ TRANSCRIPT_OPEN ++ transcript ++ TRANSCRIPT_CLOSE)
    TERM_HEADING
  = contains transcript TERM_HEADING.
Proof.
  intros Hcore.
  assert (contains [] TERM_HEADING = false) as H0 by reflexivity.
  assert (contains (py_lit "文字起こし:") TERM_HEADING = false) as H1
    by reflexivity.
  assert (contains (py_lit "---") TERM_HEADING = false) as H2 by reflexivity.
  assert (contains (py_lit "要約 (Markdown):") TERM_HEADING = false) as H3
    by reflexivity.
  change (core ++ [LF] ++ [] ++ TRANSCRIPT_OPEN ++ transcript ++ TRANSCRIPT_CLOSE)
    with (core ++ LF :: ([] ++ LF :: (py_lit "文字起こし:" ++ LF ::
            (py_lit "---" ++ LF :: (transcript ++ LF ::
               (py_lit "---" ++ LF :: py_lit "要約 (Markdown):")))))).
  rewrite !contains_app_lf by reflexivity.
  rewrite Hcore, H0, H1, H2, H3. cbn [orb]. by rewrite orb_false_r.
Qed.

Lemma bullets_single_line (terms : list str) :
  forallb single_line terms = true ->
  forallb single_line (List.map bullet terms) = true.
Proof.
  induction terms as [|t terms IH]; [done|]. cbn [forallb List.map].
  intros Hall. apply andb_true_iff in Hall as [Ht Hall].
  rewrite (IH Hall), andb_true_r. unfold bullet, single_line.
  by rewrite forallb_app.
Qed.

(** C7, as the code has it. With an empty glossary the glossary section
    is the empty string: the prompt is the core instruction, an empty
    line and the delimited transcript, and the glossary heading occurs
    in the prompt exactly when the transcript itself contains it. With a
    non-empty glossary the section is the fixed instruction line followed
    by one ["- term"] line per term, in list order. In both cases the
    transcript stands verbatim between the fixed delimiter lines. *)
Theorem glossary_section_of_prompt (transcript : str) (t : str)
    (ts : list str) (prompt_type : str) :
  fst (build_prompt transcript [] prompt_type)
  = prompt_core prompt_type ++ [LF]
      ++ py_lit "\n文字起こし:\n---\n" ++ transcript
      ++ py_lit "\n---\n要約 (Markdown):"
  /\ contains (fst (build_prompt transcript [] prompt_type)) TERM_HEADING
     = contains transcript TERM_HEADING
  /\ fst (build_prompt transcript (t :: ts) prompt_type)
     = prompt_core prompt_type ++ [LF]
         ++ (py_lit "以下の専門用語を適切に使用してください:" ++ [LF]
               ++ join [LF] (List.map bullet (t :: ts)))
         ++ py_lit "\n文字起こし:\n---\n" ++ transcript
         ++ py_lit "\n---\n要約 (Markdown):"
  /\ bullet t = py_lit "- " ++ t
  /\ (forallb single_line (t :: ts) = true ->
      split_lf [] (term_section (t :: ts))
      = TERM_HEADING :: List.map bullet (t :: ts)).
Proof.
  assert (forall terms,
            fst (build_prompt transcript terms prompt_type)
            = prompt_core prompt_type ++ [LF] ++ term_section terms
                ++ TRANSCRIPT_OPEN ++ transcript ++ TRANSCRIPT_CLOSE) as Hshape.
  { intros terms. unfold build_prompt, prompt_core.
    by destruct (default (types !!! KEY_GENERAL) (types !! prompt_type)). }
  repeat apply conj.
  - rewrite Hshape. reflexivity.
  - rewrite Hshape. cbn [term_section].
    apply heading_only_from_transcript. unfold prompt_core.
    destruct (selected_entry prompt_type) as [H|[H|H]];
      cbv zeta in H; rewrite H; reflexivity.
  - rewrite Hshape. cbn [term_section]. rewrite <- !app_assoc. reflexivity.
  - reflexivity.
  - intros Hall. cbn [term_section]. rewrite <- app_assoc. cbn [app].
    rewrite (split_lf_app TERM_HEADING [] _ eq_refl). cbn [app]. f_equal.
    apply split_lf_join; [discriminate | by apply bullets_single_line].
Qed.

Lemma glossary_section_of_prompt_witness :
  contains (fst (build_prompt (py_lit "we met") [] (py_lit "meeting")))
    TERM_HEADING = false
  /\ split_lf [] (term_section [py_lit "Rocq"; py_lit "stdpp"])
     = [TERM_HEADING; py_lit "- Rocq"; py_lit "- stdpp"].
Proof.
  pose proof (glossary_section_of_prompt (py_lit "we met") (py_lit "Rocq")
                [py_lit "stdpp"] (py_lit "meeting")) as (_ & Hin & _ & _ & Hsplit).
  split; [exact Hin | exact (Hsplit eq_refl)].
Defined.

(** An empty glossary and a transcript that quotes the glossary heading:
    the heading is in the prompt. *)
Lemma heading_in_prompt_without_glossary :
  term_section [] = []
  /\ contains (fst (build_prompt TERM_HEADING [] KEY_GENERAL)) TERM_HEADING
     = true.
Proof. split; reflexivity. Qed.

(* ===================================================================== *)
(** ** Summarization and output *)
(* ===================================================================== *)

Section MainRuns.

Variable E : Env.

(** One request to the chat service, and what is made of the response. *)
Lemma summarize_run (transcript : str) (terms : list str) (prompt_type : str)
    (s : state) :
  let req := summary_request transcript terms prompt_type in
  let resp := chat E (trace s ++ [EvLog INFO; EvChatCall req]) req in
  summarize_transcript E transcript terms prompt_type s
  = match resp with
    | Some (Some content :: _) =>
        (inr (strip content),
         add_events s [EvLog INFO; EvChatCall req; EvChatReturn resp])
    | _ =>
        (inl (SystemExit 1),
         add_events s [EvLog INFO; EvChatCall req; EvChatReturn resp;
                       EvLog ERROR])
    end.
Proof.
  cbv zeta. unfold summarize_transcript, summary_request.
  destruct (build_prompt transcript terms prompt_type) as [prompt sys_msg].
  cbn [fst snd]. unfold try_except. rewrite log_then.
  unfold bind at 1. unfold chat_create. rewrite emit_then, add_events_app.
  cbn [app add_events trace].
  destruct (chat E _ _) as [[|[content|] choices]|];
    rewrite emit_then, add_events_app; cbn [app];
    unfold first_content_stripped, raise, ret; cbn [is_Exception];
    rewrite ?log_then, ?add_events_app; reflexivity.
Qed.

Lemma bind_assoc {A B C : Type} (m : M A) (f : A -> M B) (k : B -> M C)
    (s : state) :
  bind (bind m f) k s = bind m (fun x => bind (f x) k) s.
Proof. unfold bind. by destruct (m s) as [[e|a] s1]. Qed.

(** An output operation: the event, then the verdict of the host. *)
Lemma os_call_then {A : Type} (e : event) (k : M A) (s : state) :
  (os_call E e ;; k) s
  = if os_ok E (trace s ++ [e]) then k (add_events s [e])
    else (inl OSError, add_events s [e]).
Proof.
  unfold os_call, bind, emit. cbn [add_events trace fst snd].
  destruct (os_ok E _); reflexivity.
Qed.

Lemma makedirs_then {A : Type} (d : str) (k : M A) (s : state) :
  (makedirs E d ;; k) s
  = if os_ok E (trace s ++ [EvMakedirs d]) then
      match files s !! d with
      | Some _ => (inl FileExistsError, add_events s [EvMakedirs d])
      | None => k {| trace := trace s ++ [EvMakedirs d]; files := files s;
                     dirs := {[ d ]} ∪ dirs s |}
      end
    else (inl OSError, add_events s [EvMakedirs d]).
Proof.
  unfold makedirs. rewrite bind_assoc, os_call_then.
  destruct (os_ok E _); [|reflexivity].
  unfold bind. cbn [add_events trace files dirs].
  destruct (files s !! d); reflexivity.
Qed.

Lemma open_w_then {A : Type} (path : str) (k : M A) (s : state) :
  (open_w E path ;; k) s
  = if os_ok E (trace s ++ [EvOpenW path]) then
      if decide (path ∈ dirs s)
      then (inl IsADirectoryError, add_events s [EvOpenW path])
      else k {| trace := trace s ++ [EvOpenW path];
                files := <[path := []]> (files s); dirs := dirs s |}
    else (inl OSError, add_events s [EvOpenW path]).
Proof.
  unfold open_w. rewrite bind_assoc, os_call_then.
  destruct (os_ok E _); [|reflexivity].
  unfold bind. cbn [add_events trace files dirs].
  destruct (decide (path ∈ dirs s)); reflexivity.
Qed.

Lemma file_write_then {A : Type} (path text : str) (k : M A) (s : state) :
  (file_write E path text ;; k) s
  = if os_ok E (trace s ++ [EvFileWrite path text]) then
      k {| trace := trace s ++ [EvFileWrite path text];
           files := <[path := default [] (files s !! path) ++ text]> (files s);
           dirs := dirs s |}
    else (inl OSError, add_events s [EvFileWrite path text]).
Proof.
  unfold file_write. rewrite bind_assoc, os_call_then.
  destruct (os_ok E _); reflexivity.
Qed.

(** The output phase leaves an initial part of its events, at least the
    first print. It returns only after all of them, and then the run
    directory exists and the file holds the heading and the summary; it
    fails only with an error of an output operation, before the last
    log line. *)
Lemma output_phase_run (audio_file transcript summary : str) (s : state) :
  exists n,
    trace (snd (output_phase E audio_file transcript summary s))
    = trace s
        ++ firstn (S n) (output_events E audio_file transcript summary)
    /\ match fst (output_phase E audio_file transcript summary s) with
       | inr _ =>
           snd (output_phase E audio_file transcript summary s)
           = {| trace := trace s
                           ++ output_events E audio_file transcript summary;
                files := <[output_path E audio_file :=
                             output_content audio_file summary]> (files s);
                dirs := {[output_dir E]} ∪ dirs s |}
       | inl e => is_output_error e = true /\ (n < 6)%nat
       end.
Proof.
  unfold output_phase, print2.
  fold (output_dir E). fold (output_path E audio_file).
  rewrite os_call_then.
  destruct (os_ok E _);
    [|exists 0%nat; cbn [fst snd add_events trace];
      split; [reflexivity | split; [reflexivity | lia]]].
  rewrite os_call_then.
  destruct (os_ok E _);
    [|exists 1%nat; cbn [fst snd add_events trace];
      split; [by rewrite <- app_assoc | split; [reflexivity | lia]]].
  rewrite makedirs_then. cbn [add_events trace files dirs].
  destruct (os_ok E _);
    [|exists 2%nat; cbn [fst snd add_events trace];
      split; [by rewrite <- !app_assoc | split; [reflexivity | lia]]].
  destruct (files s !! output_dir E) eqn:Hdir;
    [exists 2%nat; cbn [fst snd add_events trace];
     split; [by rewrite <- !app_assoc | split; [reflexivity | lia]]|].
  rewrite open_w_then. cbn [add_events trace files dirs].
  destruct (os_ok E _);
    [|exists 3%nat; cbn [fst snd add_events trace];
      split; [by rewrite <- !app_assoc | split; [reflexivity | lia]]].
  destruct (decide (output_path E audio_file ∈ {[output_dir E]} ∪ dirs s));
    [exists 3%nat; cbn [fst snd add_events trace];
     split; [by rewrite <- !app_assoc | split; [reflexivity | lia]]|].
  rewrite file_write_then. cbn [add_events trace files dirs].
  destruct (os_ok E _);
    [|exists 4%nat; cbn [fst snd add_events trace];
      split; [by rewrite <- !app_assoc | split; [reflexivity | lia]]].
  rewrite file_write_then. cbn [add_events trace files dirs].
  destruct (os_ok E _);
    [|exists 5%nat; cbn [fst snd add_events trace];
      split; [by rewrite <- !app_assoc | split; [reflexivity | lia]]].
  exists 6%nat. unfold log, emit. cbn [fst snd trace files dirs].
  split; [by rewrite <- !app_assoc|].
  rewrite lookup_insert_eq. cbn [default app].
  rewrite insert_insert_eq, lookup_insert_eq, insert_insert_eq.
  unfold output_content. f_equal; by rewrite <- !app_assoc.
Qed.

(** [main] is [transcribe_audio], then, if that returned, one chat
    request, and, if that gave a summary, the output phase. *)
Lemma main_run (audio_file prompt_type : str) (s : state) :
  main E audio_file prompt_type s
  = match transcribe_audio E audio_file s with
    | (inl e, s1) => (inl e, s1)
    | (inr transcript, s1) =>
        let terms := load_special_terms (script_file E) (files s1) in
        let req := summary_request transcript terms prompt_type in
        let resp := chat E (trace s1 ++ [EvLog INFO; EvChatCall req]) req in
        match resp with
        | Some (Some content :: choices) =>
            output_phase E audio_file transcript (strip content)
              (add_events s1 [EvLog INFO; EvChatCall req; EvChatReturn resp])
        | _ =>
            (inl (SystemExit 1),
             add_events s1 [EvLog INFO; EvChatCall req; EvChatReturn resp;
                            EvLog ERROR])
        end
    end.
Proof.
  unfold main. unfold bind at 1.
  destruct (transcribe_audio E audio_file s) as [[e|transcript] s1];
    [reflexivity|].
  unfold bind at 1. unfold load_terms at 1. unfold bind at 1.
  rewrite summarize_run. cbv zeta.
  destruct (chat E _ _) as [[|[content|] choices]|]; reflexivity.
Qed.

(** The transcription phase prints and writes nothing; it has a failed
    response only if it raises, and then only cleanup follows. *)
Lemma transcribe_phase (path : str) (s : state) :
  exists evs,
    snd (transcribe_audio E path s) = add_events s evs
    /\ no_output evs = true
    /\ match fst (transcribe_audio E path s) with
       | inr _ => after_failure evs = None
       | inl e =>
           is_output_error e = false
           /\ forall post, after_failure evs = Some post ->
                           forallb is_cleanup post = true
       end.
Proof.
  destruct (isfile E path) eqn:Hf.
  - destruct (Z_le_gt_dec (getsize E path) threshold_bytes) as [Hle|Hgt].
    + rewrite (transcribe_small E path s Hf Hle).
      destruct (whisper E _ path) as [t|]; eexists;
        (split; [reflexivity|]); (split; [reflexivity|]); cbn.
      * reflexivity.
      * split; [reflexivity|]. intros post [= <-]. reflexivity.
    + apply Z.gt_lt in Hgt.
      destruct (decode_audio E path) as [D| |] eqn:Hd.
      * destruct (transcribe_chunked E path D s Hf Hgt Hd)
          as (texts & stop & evs & Hloop & Heq).
        rewrite Heq. apply loop_run_quiet in Hloop as [Hout Hfail].
        eexists. split; [reflexivity|].
        rewrite !no_output_app, !after_failure_app, Hout, Hfail.
        split; [reflexivity|]. cbn [fst].
        destruct stop; cbn; [reflexivity | |];
          (split; [reflexivity|]); [intros post [= <-]; reflexivity|].
        discriminate.
      * rewrite (transcribe_undecodable E path s Hf Hgt)
          by (intros D; rewrite Hd; discriminate).
        eexists. split; [reflexivity|]. split; [reflexivity|].
        cbn. split; [reflexivity | discriminate].
      * rewrite (transcribe_undecodable E path s Hf Hgt)
          by (intros D; rewrite Hd; discriminate).
        eexists. split; [reflexivity|]. split; [reflexivity|].
        cbn. split; [reflexivity | discriminate].
  - rewrite (transcribe_missing E path s Hf).
    eexists. split; [reflexivity|]. split; [reflexivity|].
    cbn. split; [reflexivity | discriminate].
Qed.

(** Every run of the script either fails before any output, and then
    has changed no file and no directory and printed nothing, with only
    cleanup after a failed response; or has received the summary, and
    then its trace ends with the summary's arrival followed by an initial
    part of the output, all of it when the run succeeds, and nothing
    before that was a failed response or an output. *)
Lemma script_outcome (audio_file prompt_type : str)
    (fs : gmap str str) (ds : gset str) :
  let run := script E audio_file prompt_type (initial fs ds) in
  ((exists exn, fst run = inl exn /\ is_output_error exn = false)
   /\ files (snd run) = fs /\ dirs (snd run) = ds
   /\ no_output (trace (snd run)) = true
   /\ (forall post, after_failure (trace (snd run)) = Some post ->
                    forallb is_cleanup post = true))
  \/ (exists pre transcript content choices n,
        fst (transcribe_audio E audio_file (initial fs ds)) = inr transcript
        /\ trace (snd run)
           = pre ++ firstn (S (S n))
                      (success_tail E audio_file transcript content choices)
        /\ chat E pre
             (summary_request transcript
                (load_special_terms (script_file E) fs) prompt_type)
           = Some (Some content :: choices)
        /\ no_output pre = true
        /\ after_failure pre = None
        /\ match fst run with
           | inr _ =>
               trace (snd run)
               = pre ++ success_tail E audio_file transcript content choices
               /\ files (snd run)
                  = <[output_path E audio_file :=
                        output_content audio_file (strip content)]> fs
               /\ dirs (snd run) = {[output_dir E]} ∪ ds
           | inl exn => is_output_error exn = true /\ (n < 6)%nat
           end).
Proof.
  cbv zeta. unfold script.
  destruct (api_key E) as [[|c k]|];
    [left; split; [by eexists|]; do 3 (split; [reflexivity|]);
     cbn; discriminate
    | | left; split; [by eexists|]; do 3 (split; [reflexivity|]);
        cbn; discriminate].
  rewrite main_run.
  destruct (transcribe_phase audio_file (initial fs ds))
    as (evs & Hs1 & Hout & Hfail).
  destruct (transcribe_audio E audio_file (initial fs ds))
    as [[e|transcript] s1]; cbn [fst snd] in *; subst s1.
  - left. cbn [fst snd add_events initial trace files dirs app].
    destruct Hfail as [Hkind Hfail].
    split; [by exists e|]. split; [reflexivity|]. split; [reflexivity|].
    split; [exact Hout | exact Hfail].
  - cbv zeta. cbn [add_events initial trace files dirs app].
    destruct (chat E _ _) as [[|[content|] choices]|] eqn:Hchat.
    + left. cbn [fst snd add_events trace files dirs initial app].
      split; [by eexists|]. split; [reflexivity|]. split; [reflexivity|].
      split; [rewrite no_output_app, Hout; reflexivity|].
      rewrite after_failure_app, Hfail. cbn. by intros post [= <-].
    + right.
      match goal with
      | |- context [output_phase E ?a ?t ?c ?s0] =>
          destruct (output_phase_run a t c s0) as (n & Htrace & Hres)
      end.
      cbn [add_events initial trace files dirs app] in Htrace, Hres.
      exists (evs ++ [EvLog INFO; EvChatCall
                        (summary_request transcript
                           (load_special_terms (script_file E) fs)
                           prompt_type)]),
        transcript, content, choices, n.
      split; [reflexivity|].
      split; [rewrite Htrace, <- !app_assoc; reflexivity|].
      split; [exact Hchat|].
      split; [rewrite no_output_app, Hout; reflexivity|].
      split; [rewrite after_failure_app, Hfail; reflexivity|].
      destruct (fst (output_phase _ _ _ _ _)) as [exn|[]]; [exact Hres|].
      rewrite Hres. cbn [trace files dirs].
      split; [rewrite <- !app_assoc; reflexivity|]. split; reflexivity.
    + left. cbn [fst snd add_events trace files dirs initial app].
      split; [by eexists|]. split; [reflexivity|]. split; [reflexivity|].
      split; [rewrite no_output_app, Hout; reflexivity|].
      rewrite after_failure_app, Hfail. cbn. by intros post [= <-].
    + left. cbn [fst snd add_events trace files dirs initial app].
      split; [by eexists|]. split; [reflexivity|]. split; [reflexivity|].
      split; [rewrite no_output_app, Hout; reflexivity|].
      rewrite after_failure_app, Hfail. cbn. by intros post [= <-].
Qed.

End MainRuns.

(* ===================================================================== *)
(** ** Failure leaves no output *)
(* ===================================================================== *)

(** Whatever follows a failed response follows the first one. *)
Lemma after_failure_split (tr pre : list event) (e : event) (post : list event) :
  tr = pre ++ e :: post ->
  is_failed_response e = true ->
  exists mid post0, after_failure tr = Some post0 /\ post0 = mid ++ post.
Proof.
  intros -> He. induction pre as [|x pre IH].
  - exists [], post. cbn. by rewrite He.
  - cbn. destruct (is_failed_response x).
    + exists (pre ++ [e]), (pre ++ e :: post).
      split; [reflexivity|]. by rewrite <- app_assoc.
    + exact IH.
Qed.

(** An initial part of a trace without failed response has none. *)
Lemma after_failure_firstn (l : list event) : forall m,
  after_failure l = None -> after_failure (firstn m l) = None.
Proof.
  induction l as [|x l IH]; intros [|m]; try done.
  cbn [after_failure firstn]. destruct (is_failed_response x); [done|].
  apply IH.
Qed.

(** Cleanup is neither a request nor an output. *)
Lemma cleanup_is_quiet (post : list event) :
  forallb is_cleanup post = true ->
  List.filter is_service_call post = [] /\ no_output post = true.
Proof.
  induction post as [|e post IH]; [done|].
  cbn [forallb]. intros H. apply andb_true_iff in H as [He Hpost].
  destruct (IH Hpost) as [IHc IHo].
  unfold no_output in *. cbn [List.filter forallb].
  destruct e as [[]| | | | | | | | | | | |]; try discriminate;
    cbn; by rewrite ?IHc, ?IHo.
Qed.

(** C4. In every run of the script, a failed response of the
    transcription service (on any chunk) or of the chat service ends the
    run with an error: after it there is no further request to either
    service (so no later chunk is sent and nothing is retried), only
    cleanup; nothing is printed, no directory is made and no file is
    opened or written, and the file system is as it was. Whatever a run
    prints, makes or writes, it does after transcription, glossary load
    and summarization have all completed without a failed response: a
    run in which they did not has printed nothing and left the file
    system as it was. A run that succeeds had no failed response, and
    all of its output comes after the summary arrived. *)
Theorem failure_aborts_without_output (E : Env) (audio_file prompt_type : str)
    (fs : gmap str str) (ds : gset str) (r : exception + unit) (s' : state) :
  script E audio_file prompt_type (initial fs ds) = (r, s') ->
  (forall pre e post,
     trace s' = pre ++ e :: post ->
     is_failed_response e = true ->
     (exists exn, r = inl exn)
     /\ forallb is_cleanup post = true
     /\ List.filter is_service_call post = []
     /\ no_output (trace s') = true
     /\ files s' = fs /\ dirs s' = ds)
  /\ ((no_output (trace s') = true /\ files s' = fs /\ dirs s' = ds)
      \/ (after_failure (trace s') = None
          /\ exists pre transcript content choices n,
               fst (transcribe_audio E audio_file (initial fs ds))
               = inr transcript
               /\ chat E pre
                    (summary_request transcript
                       (load_special_terms (script_file E) fs) prompt_type)
                  = Some (Some content :: choices)
               /\ trace s'
                  = pre ++ EvChatReturn (Some (Some content :: choices))
                        :: firstn n (output_events E audio_file transcript
                                       (strip content))
               /\ no_output pre = true))
  /\ (r = inr tt ->
      after_failure (trace s') = None
      /\ exists pre transcript content choices,
           fst (transcribe_audio E audio_file (initial fs ds)) = inr transcript
           /\ trace s' = pre ++ success_tail E audio_file transcript content choices
           /\ no_output pre = true).
Proof.
  intros Hrun.
  pose proof (script_outcome E audio_file prompt_type fs ds) as Hcases.
  cbv zeta in Hcases. rewrite Hrun in Hcases. cbn [fst snd] in Hcases.
  destruct Hcases as
    [((exn & Hexn & _) & Hfs & Hds & Hout & Hfail)
    |(pre & transcript & content & choices & n
        & Htr & Htrace & Hchat & Hout & Hfail & Hres)].
  - split; [|split].
    + intros pre e post Htrace He.
      destruct (after_failure_split _ _ _ _ Htrace He)
        as (mid & post0 & Hafter & ->).
      specialize (Hfail _ Hafter). rewrite forallb_app in Hfail.
      apply andb_true_iff in Hfail as [_ Hpost].
      destruct (cleanup_is_quiet post Hpost) as [Hcalls _].
      split; [by exists exn|]. by repeat split.
    + left. by repeat split.
    + intros ->. discriminate.
  - change (success_tail E audio_file transcript content choices)
      with (EvChatReturn (Some (Some content :: choices))
              :: output_events E audio_file transcript (strip content))
      in Htrace, Hres.
    cbn [firstn] in Htrace.
    assert (after_failure (trace s') = None) as Hnone.
    { rewrite Htrace, after_failure_app, Hfail.
      cbn [after_failure is_failed_response].
      by apply after_failure_firstn. }
    split; [|split].
    + intros pre' e post Htrace' He.
      destruct (after_failure_split _ _ _ _ Htrace' He)
        as (mid & post0 & Hafter & _).
      congruence.
    + right. split; [exact Hnone|].
      by exists pre, transcript, content, choices, (S n).
    + intros ->. split; [exact Hnone|].
      destruct Hres as (Hall & _).
      by exists pre, transcript, content, choices.
Qed.

Lemma failure_aborts_without_output_witness :
  (fst (script Sample.long_recording_flaky Sample.audio_path KEY_GENERAL
          Sample.start) = inl APIError
   /\ skipn 10 (trace (snd (script Sample.long_recording_flaky
                              Sample.audio_path KEY_GENERAL Sample.start)))
      = [EvTranscribeReturn None; EvRmtree (tmpdir Sample.long_recording_flaky)]
   /\ no_output (trace (snd (script Sample.long_recording_flaky
                               Sample.audio_path KEY_GENERAL Sample.start)))
      = true
   /\ files (snd (script Sample.long_recording_flaky Sample.audio_path
                    KEY_GENERAL Sample.start)) = ∅)
  /\ (fst (script Sample.short_recording_chat_down Sample.audio_path
             KEY_GENERAL Sample.start) = inl (SystemExit 1)
      /\ no_output (trace (snd (script Sample.short_recording_chat_down
                                  Sample.audio_path KEY_GENERAL Sample.start)))
         = true
      /\ files (snd (script Sample.short_recording_chat_down Sample.audio_path
                       KEY_GENERAL Sample.start)) = ∅)
  /\ (fst (script Sample.short_recording Sample.audio_path KEY_GENERAL
             (initial Sample.occupied ∅)) = inl FileExistsError
      /\ no_output (trace (snd (script Sample.short_recording
                                  Sample.audio_path KEY_GENERAL
                                  (initial Sample.occupied ∅))))
         = false
      /\ after_failure (trace (snd (script Sample.short_recording
                                      Sample.audio_path KEY_GENERAL
                                      (initial Sample.occupied ∅))))
         = None).
Proof.
  split; [|split].
  - assert (trace (snd (script Sample.long_recording_flaky Sample.audio_path
                          KEY_GENERAL Sample.start))
            = firstn 10 (trace (snd (script Sample.long_recording_flaky
                                       Sample.audio_path KEY_GENERAL
                                       Sample.start)))
                ++ EvTranscribeReturn None
                :: [EvRmtree (tmpdir Sample.long_recording_flaky)]) as Hsplit
      by (vm_compute; reflexivity).
    destruct (proj1 (failure_aborts_without_output Sample.long_recording_flaky
        Sample.audio_path KEY_GENERAL ∅ ∅
        (fst (script Sample.long_recording_flaky Sample.audio_path KEY_GENERAL
                Sample.start))
        (snd (script Sample.long_recording_flaky Sample.audio_path KEY_GENERAL
                Sample.start))
        (surjective_pairing _)) _ _ _ Hsplit eq_refl)
      as (_ & _ & _ & Hout & Hfs & _).
    split; [vm_compute; reflexivity|]. split; [vm_compute; reflexivity|].
    split; [exact Hout | exact Hfs].
  - assert (trace (snd (script Sample.short_recording_chat_down
                          Sample.audio_path KEY_GENERAL Sample.start))
            = firstn 5 (trace (snd (script Sample.short_recording_chat_down
                                      Sample.audio_path KEY_GENERAL
                                      Sample.start)))
                ++ EvChatReturn None :: [EvLog ERROR]) as Hsplit
      by (vm_compute; reflexivity).
    destruct (proj1 (failure_aborts_without_output
        Sample.short_recording_chat_down Sample.audio_path KEY_GENERAL ∅ ∅
        (fst (script Sample.short_recording_chat_down Sample.audio_path
                KEY_GENERAL Sample.start))
        (snd (script Sample.short_recording_chat_down Sample.audio_path
                KEY_GENERAL Sample.start))
        (surjective_pairing _)) _ _ _ Hsplit eq_refl)
      as (_ & _ & _ & Hout & Hfs & _).
    split; [vm_compute; reflexivity|]. split; [exact Hout | exact Hfs].
  - assert (no_output (trace (snd (script Sample.short_recording
                                     Sample.audio_path KEY_GENERAL
                                     (initial Sample.occupied ∅))))
            = false) as Hprinted
      by (vm_compute; reflexivity).
    split; [vm_compute; reflexivity|]. split; [exact Hprinted|].
    destruct (proj1 (proj2 (failure_aborts_without_output
        Sample.short_recording Sample.audio_path KEY_GENERAL
        Sample.occupied ∅
        (fst (script Sample.short_recording Sample.audio_path KEY_GENERAL
                (initial Sample.occupied ∅)))
        (snd (script Sample.short_recording Sample.audio_path KEY_GENERAL
                (initial Sample.occupied ∅)))
        (surjective_pairing _))))
      as [(Hquiet & _)|(Hnone & _)]; [|exact Hnone].
    rewrite Hprinted in Hquiet. discriminate.
Defined.

(* ===================================================================== *)
(** ** The name of the output file *)
(* ===================================================================== *)

(** The last occurrence found by [rfind_from] has none after it. *)
Lemma rfind_from_spec (c : N) (s : str) : forall i,
  0 <= i ->
  (rfind_from i c s = -1 /\ Forall (fun x => x <> c) s)
  \/ (i <= rfind_from i c s < i + Z.of_nat (length s)
      /\ Forall (fun x => x <> c)
           (skipn (S (Z.to_nat (rfind_from i c s - i))) s)).
Proof.
  induction s as [|x t IH]; intros i Hi.
  - left. split; [reflexivity | constructor].
  - cbn [rfind_from]. cbv zeta.
    destruct (IH (i + 1) ltac:(lia)) as [[Hr Hall]|[Hr Hall]].
    + rewrite Hr. cbn [Z.leb Z.compare].
      destruct (N.eqb_spec x c) as [->|Hne].
      * right. split; [cbn [length]; lia|].
        rewrite Z.sub_diag. exact Hall.
      * left. split; [reflexivity | by constructor].
    + destruct (Z.leb_spec 0 (rfind_from (i + 1) c t)) as [_|Hneg]; [|lia].
      right. split; [cbn [length]; lia|].
      replace (Z.to_nat (rfind_from (i + 1) c t - i))
        with (S (Z.to_nat (rfind_from (i + 1) c t - (i + 1)))) by lia.
      exact Hall.
Qed.

Lemma basename_no_slash (p : str) : Forall (fun x => x <> SLASH) (basename p).
Proof.
  unfold basename, slice_from, rfind. cbv zeta.
  destruct (rfind_from_spec SLASH p 0 ltac:(lia)) as [[Hr Hall]|[Hr Hall]].
  - rewrite Hr. exact Hall.
  - rewrite Z.sub_0_r in Hall.
    replace (Z.to_nat (rfind_from 0 SLASH p + 1))
      with (S (Z.to_nat (rfind_from 0 SLASH p))) by lia.
    exact Hall.
Qed.

Lemma output_base_no_slash (audio_file : str) :
  Forall (fun x => x <> SLASH) (output_base audio_file).
Proof.
  unfold output_base, splitext. cbv zeta.
  destruct (_ && _); cbn [fst]; [|apply basename_no_slash].
  unfold slice_to. apply Forall_take, basename_no_slash.
Qed.

(** Decimal renderings are non-empty strings of digits. *)
Lemma uint_digits (u : Decimal.uint) :
  forallb is_digit
    (List.map N_of_ascii (list_ascii_of_string (NilEmpty.string_of_uint u)))
  = true.
Proof. induction u; cbn; try rewrite IHu; reflexivity. Qed.

Lemma str_of_nat_digits (n : nat) :
  str_of_nat n <> [] /\ forallb is_digit (str_of_nat n) = true.
Proof.
  unfold str_of_nat, NilZero.string_of_uint.
  pose proof (uint_digits (Nat.to_uint n)) as Hd.
  destruct (Nat.to_uint n); (split; [discriminate | first [reflexivity | exact Hd]]).
Qed.

Lemma zero_pad_last_digit (w n : nat) :
  exists front c, zero_pad w n = front ++ [c] /\ is_digit c = true.
Proof.
  unfold zero_pad. cbv zeta.
  destruct (str_of_nat_digits n) as [Hne Hall].
  destruct (exists_last Hne) as (front & c & Heq). rewrite Heq in Hall |- *.
  rewrite forallb_app in Hall. apply andb_true_iff in Hall as [_ Hc].
  cbn in Hc. rewrite andb_true_r in Hc.
  exists (repeat 48%N (w - length (front ++ [c])) ++ front), c.
  split; [by rewrite <- app_assoc | exact Hc].
Qed.

(** The output file sits in the run directory under the stem of the
    audio file with [.md] appended. *)
Lemma output_path_spec (E : Env) (audio_file : str) :
  output_path E audio_file
  = output_dir E ++ [SLASH] ++ output_base audio_file ++ py_lit ".md".
Proof.
  unfold output_path, join2.
  assert (startswith (output_base audio_file ++ py_lit ".md") [SLASH] = false)
    as ->.
  { pose proof (output_base_no_slash audio_file) as Hb.
    destruct (output_base audio_file) as [|x b]; [reflexivity|].
    apply Forall_cons in Hb as [Hx _]. cbn [app startswith].
    destruct (N.eqb_spec SLASH x) as [<-|]; [done | reflexivity]. }
  unfold output_dir, strftime_run.
  destruct (zero_pad_last_digit 2 (dt_minute (now E))) as (front & c & -> & Hc).
  rewrite !app_assoc.
  set (pre := (((((_ ++ _) ++ _) ++ _) ++ _) ++ front)).
  assert (truthy (pre ++ [c]) = true) as -> by (by destruct pre).
  assert (endswith (pre ++ [c]) [SLASH] = false) as ->.
  { unfold endswith. rewrite rev_app_distr. cbn [rev app startswith].
    destruct (N.eqb_spec SLASH c) as [<-|]; [discriminate | reflexivity]. }
  cbn [negb orb]. by rewrite <- !app_assoc.
Qed.

(* ===================================================================== *)
(** ** The output of a successful run *)
(* ===================================================================== *)

(** C9. After a successful run the file [<stem>.md], where [<stem>] is
    the base name of the audio file without its extension, exists in the
    directory named [YYYYMMDD_HHMM] after the current time (seconds and
    below play no part), and holds exactly the heading ["# 要約: <stem>"],
    an empty line, and the summary: the content of the chat response,
    stripped. Whatever the path held before is replaced; no other file
    changes. *)
Theorem output_file_written (E : Env) (audio_file prompt_type : str)
    (fs : gmap str str) (ds : gset str) (s' : state) :
  script E audio_file prompt_type (initial fs ds) = (inr tt, s') ->
  let stem := fst (splitext (basename audio_file)) in
  let dir :=
    zero_pad 4 (dt_year (now E)) ++ zero_pad 2 (dt_month (now E))
      ++ zero_pad 2 (dt_day (now E)) ++ py_lit "_"
      ++ zero_pad 2 (dt_hour (now E)) ++ zero_pad 2 (dt_minute (now E)) in
  let md := dir ++ py_lit "/" ++ stem ++ py_lit ".md" in
  exists history transcript content choices,
    fst (transcribe_audio E audio_file (initial fs ds)) = inr transcript
    /\ chat E history
         (summary_request transcript (load_special_terms (script_file E) fs)
            prompt_type)
       = Some (Some content :: choices)
    /\ trace s'
       = history ++
         [ EvChatReturn (Some (Some content :: choices));
           EvPrint (py_lit "=== 文字起こし ===\n" ++ py_lit " " ++ transcript ++ [LF]);
           EvPrint (py_lit "\n=== 要約 ===\n" ++ py_lit " " ++ strip content ++ [LF]);
           EvMakedirs dir;
           EvOpenW md;
           EvFileWrite md (py_lit "# 要約: " ++ stem ++ py_lit "\n\n");
           EvFileWrite md (strip content);
           EvLog INFO ]
    /\ no_output history = true
    /\ files s' !! md
       = Some (py_lit "# 要約: " ++ stem ++ py_lit "\n\n" ++ strip content)
    /\ (forall p, p <> md -> files s' !! p = fs !! p)
    /\ dirs s' = {[dir]} ∪ ds.
Proof.
  intros Hrun stem dir md.
  pose proof (script_outcome E audio_file prompt_type fs ds) as Hcases.
  cbv zeta in Hcases. rewrite Hrun in Hcases. cbn [fst snd] in Hcases.
  destruct Hcases as
    [((exn & Hexn & _) & _)
    |(pre & transcript & content & choices & n
        & Htr & _ & Hchat & Hout & _ & Htrace & Hfs & Hds)]; [discriminate|].
  assert (output_path E audio_file = md) as Hmd by apply output_path_spec.
  exists pre, transcript, content, choices.
  unfold success_tail in Htrace. rewrite Hmd in Htrace, Hfs.
  split; [exact Htr|]. split; [exact Hchat|]. split; [exact Htrace|].
  split; [exact Hout|]. rewrite Hfs.
  split; [rewrite lookup_insert_eq; unfold output_content;
          by rewrite <- !app_assoc|].
  split; [intros p Hp; by rewrite lookup_insert_ne | exact Hds].
Qed.

Lemma output_file_written_witness :
  fst (script Sample.short_recording Sample.audio_path KEY_GENERAL
         (initial Sample.stale_output ∅)) = inr tt
  /\ files (snd (script Sample.short_recording Sample.audio_path KEY_GENERAL
                   (initial Sample.stale_output ∅)))
       !! py_lit "20240131_0905/standup.md"
     = Some (py_lit "# 要約: standup\n\n- decided: ship")
  /\ dirs (snd (script Sample.short_recording Sample.audio_path KEY_GENERAL
                  (initial Sample.stale_output ∅)))
     = {[ py_lit "20240131_0905" ]} ∪ ∅.
Proof.
  assert (script Sample.short_recording Sample.audio_path KEY_GENERAL
            (initial Sample.stale_output ∅)
          = (inr tt,
             snd (script Sample.short_recording Sample.audio_path KEY_GENERAL
                    (initial Sample.stale_output ∅)))) as Hrun
    by (vm_compute; reflexivity).
  destruct (output_file_written Sample.short_recording Sample.audio_path
              KEY_GENERAL Sample.stale_output ∅ _ Hrun)
    as (history & transcript & content & choices
          & _ & _ & _ & _ & _ & _ & Hdirs).
  split; [vm_compute; reflexivity|].
  split; [vm_compute; reflexivity | exact Hdirs].
Defined.

(* ===================================================================== *)
(** ** Further properties: the shapes of a transcription run *)
(* ===================================================================== *)

Lemma loop_run_events_kind (E : Env) (audio : AudioSegment) (ext tmp : str)
    h items texts stop evs :
  loop_run E audio ext tmp h items texts stop evs ->
  forallb in_chunk_loop evs = true.
Proof.
  intros Hrun.
  induction Hrun as [h|h it rest Hx|h it rest Hx Hw
                     |h it rest t texts stop evs Hx Hw Hrun IH];
    [reflexivity | reflexivity | reflexivity |].
  rewrite forallb_app, IH. reflexivity.
Qed.

(** The four ways [transcribe_audio] can run: no file, a small file, a
    file that does not decode, and the chunk loop. *)
Lemma transcribe_cases (E : Env) (path : str) (s : state) :
  (isfile E path = false
   /\ transcribe_audio E path s
      = (inl (SystemExit 1), add_events s [EvLog ERROR]))
  \/ (isfile E path = true /\ getsize E path <= threshold_bytes
      /\ exists resp,
           transcribe_audio E path s
           = (match resp with
              | Some text => inr text
              | None => inl APIError
              end,
              add_events s [EvLog INFO; EvTranscribeCall path;
                            EvTranscribeReturn resp]))
  \/ (isfile E path = true /\ threshold_bytes < getsize E path
      /\ (forall D, decode_audio E path <> Decoded D)
      /\ transcribe_audio E path s
         = (inl (SystemExit 1),
            add_events s [EvLog INFO; EvDecode path; EvLog ERROR]))
  \/ (isfile E path = true /\ threshold_bytes < getsize E path
      /\ exists D texts stop evs,
           decode_audio E path = Decoded D
           /\ loop_run E (whole_recording D) (snd (splitext (basename path)))
                (tmpdir E)
                (trace s ++ [EvLog INFO; EvDecode path; EvMkdtemp (tmpdir E)])
                (enumerate (py_range 0 D AUDIO_CHUNK_LENGTH_MS)) texts stop evs
           /\ transcribe_audio E path s
              = (match loop_result texts stop with
                 | inr transcripts => inr (join CHUNK_SEPARATOR transcripts)
                 | inl e => inl e
                 end,
                 add_events s
                   ([EvLog INFO; EvDecode path; EvMkdtemp (tmpdir E)]
                      ++ evs ++ [EvRmtree (tmpdir E)]))).
Proof.
  destruct (isfile E path) eqn:Hf.
  - right.
    destruct (Z_le_gt_dec (getsize E path) threshold_bytes) as [Hle|Hgt].
    + left. split; [reflexivity|]. split; [exact Hle|].
      rewrite (transcribe_small E path s Hf Hle).
      exists (whisper E (trace s ++ [EvLog INFO; EvTranscribeCall path]) path).
      by destruct (whisper E _ path).
    + right. apply Z.gt_lt in Hgt.
      destruct (decode_audio E path) as [D| |] eqn:Hd.
      * right. split; [reflexivity|]. split; [exact Hgt|].
        destruct (transcribe_chunked E path D s Hf Hgt Hd)
          as (texts & stop & evs & Hloop & Heq).
        by exists D, texts, stop, evs.
      * left. split; [reflexivity|]. split; [exact Hgt|].
        assert (forall D, decode_audio E path <> Decoded D) as Hno
          by (intros D; rewrite Hd; discriminate).
        rewrite Hd in Hno. split; [exact Hno|].
        apply transcribe_undecodable; [exact Hf | exact Hgt|].
        intros D. rewrite Hd. discriminate.
      * left. split; [reflexivity|]. split; [exact Hgt|].
        assert (forall D, decode_audio E path <> Decoded D) as Hno
          by (intros D; rewrite Hd; discriminate).
        rewrite Hd in Hno. split; [exact Hno|].
        apply transcribe_undecodable; [exact Hf | exact Hgt|].
        intros D. rewrite Hd. discriminate.
  - left. split; [reflexivity|]. by apply transcribe_missing.
Qed.

(* ===================================================================== *)
(** ** Further properties: early exits and edge cases of transcription *)
(* ===================================================================== *)

(** X1. Without the credential (unset or empty) the script logs an
    error and exits with status 1 before anything else: whatever the
    arguments and the state of the world, no file is examined and no
    service is called. *)
Theorem missing_credential_exits (E : Env) (audio_file prompt_type : str)
    (fs : gmap str str) (ds : gset str) :
  api_key E = None \/ api_key E = Some [] ->
  script E audio_file prompt_type (initial fs ds)
  = (inl (SystemExit 1), add_events (initial fs ds) [EvLog ERROR]).
Proof. intros [Hk|Hk]; unfold script; by rewrite Hk. Qed.

Lemma missing_credential_exits_witness :
  isfile (Sample.without_key Sample.long_recording) Sample.audio_path = true
  /\ script (Sample.without_key Sample.long_recording) Sample.audio_path
       KEY_MEETING Sample.start
     = (inl (SystemExit 1), add_events Sample.start [EvLog ERROR]).
Proof.
  split; [reflexivity|].
  exact (missing_credential_exits (Sample.without_key Sample.long_recording)
           Sample.audio_path KEY_MEETING ∅ ∅ (or_introl eq_refl)).
Defined.

(** X2. A file above the size threshold that cannot be loaded as audio,
    whether the decoder reports [CouldntDecodeError] or raises anything
    else, ends the script with an error log and exit status 1 right
    after the decoding attempt: no temporary directory is made and no
    service is called. *)
Theorem undecodable_audio_exits (E : Env) (audio_file prompt_type : str)
    (fs : gmap str str) (ds : gset str) (c : N) (k : str) :
  api_key E = Some (c :: k) ->
  isfile E audio_file = true ->
  threshold_bytes < getsize E audio_file ->
  decode_audio E audio_file = CouldntDecode
  \/ decode_audio E audio_file = LoadFailed ->
  script E audio_file prompt_type (initial fs ds)
  = (inl (SystemExit 1),
     add_events (initial fs ds) [EvLog INFO; EvDecode audio_file; EvLog ERROR]).
Proof.
  intros Hkey Hf Hsize Hdec. unfold script. rewrite Hkey, main_run.
  rewrite (transcribe_undecodable E audio_file _ Hf Hsize); [reflexivity|].
  intros D. destruct Hdec as [-> | ->]; discriminate.
Qed.

Lemma undecodable_audio_exits_witness :
  threshold_bytes < getsize Sample.not_audio Sample.audio_path
  /\ script Sample.not_audio Sample.audio_path KEY_GENERAL Sample.start
     = (inl (SystemExit 1),
        add_events Sample.start
          [EvLog INFO; EvDecode Sample.audio_path; EvLog ERROR]).
Proof.
  split; [reflexivity|].
  exact (undecodable_audio_exits Sample.not_audio Sample.audio_path KEY_GENERAL
           ∅ ∅ _ _ eq_refl eq_refl eq_refl (or_introl eq_refl)).
Defined.

(** X3. A file above the size threshold whose decoded audio has length
    zero is cut into no chunk: the temporary directory is made and
    removed, no transcription request is sent, and the transcript is the
    empty string. *)
Theorem empty_audio_empty_transcript (E : Env) (path : str)
    (fs : gmap str str) (ds : gset str) :
  isfile E path = true ->
  threshold_bytes < getsize E path ->
  decode_audio E path = Decoded 0 ->
  transcribe_audio E path (initial fs ds)
  = (inr [],
     add_events (initial fs ds)
       [EvLog INFO; EvDecode path; EvMkdtemp (tmpdir E); EvRmtree (tmpdir E)]).
Proof.
  intros Hf Hsize Hdec.
  destruct (transcribe_chunked E path 0 (initial fs ds) Hf Hsize Hdec)
    as (texts & stop & evs & Hloop & Heq).
  change (enumerate (py_range 0 0 AUDIO_CHUNK_LENGTH_MS))
    with (@nil (nat * Z)) in Hloop.
  inversion Hloop; subst. exact Heq.
Qed.

Lemma empty_audio_empty_transcript_witness :
  transcribe_audio Sample.silent_recording Sample.audio_path Sample.start
  = (inr [],
     add_events Sample.start
       [EvLog INFO; EvDecode Sample.audio_path;
        EvMkdtemp (tmpdir Sample.silent_recording);
        EvRmtree (tmpdir Sample.silent_recording)]).
Proof.
  exact (empty_audio_empty_transcript Sample.silent_recording Sample.audio_path
           ∅ ∅ eq_refl eq_refl eq_refl).
Defined.

Lemma in_chunk_loop_no_tmpdir (evs : list event) :
  forallb in_chunk_loop evs = true ->
  List.filter is_tmpdir_event evs = [].
Proof.
  induction evs as [|e evs IH]; [done|].
  cbn [forallb List.filter]. intros H. apply andb_true_iff in H as [He Hevs].
  rewrite (IH Hevs). by destruct e as [[]| | | | | | | | | | | |].
Qed.

(** X4. The temporary directory never outlives [transcribe_audio]. A
    run either never touches a temporary directory, or makes it once
    and removes it as its very last step, whether it returns a
    transcript or is ended by a failed request or export; every export lies
    between the two. *)
Theorem temporary_directory_always_removed (E : Env) (path : str)
    (fs : gmap str str) (ds : gset str) (r : exception + str) (s' : state) :
  transcribe_audio E path (initial fs ds) = (r, s') ->
  List.filter touches_tmpdir (trace s') = []
  \/ exists pre mid,
       trace s' = pre ++ EvMkdtemp (tmpdir E) :: mid ++ [EvRmtree (tmpdir E)]
       /\ List.filter touches_tmpdir pre = []
       /\ List.filter is_tmpdir_event mid = [].
Proof.
  intros Hrun.
  destruct (transcribe_cases E path (initial fs ds))
    as [[_ Heq]|[(_ & _ & resp & Heq)|[(_ & _ & _ & Heq)
       |(_ & _ & D & texts & stop & evs & _ & Hloop & Heq)]]];
    rewrite Heq in Hrun; injection Hrun as _ <-.
  - by left.
  - by left.
  - by left.
  - right. exists [EvLog INFO; EvDecode path], evs.
    split; [reflexivity|]. split; [reflexivity|].
    apply in_chunk_loop_no_tmpdir. exact (loop_run_events_kind _ _ _ _ _ _ _ _ _ Hloop).
Qed.

Lemma temporary_directory_always_removed_witness :
  fst (transcribe_audio Sample.long_recording_flaky Sample.audio_path
         Sample.start) = inl APIError
  /\ exists pre mid,
       trace (snd (transcribe_audio Sample.long_recording_flaky
                     Sample.audio_path Sample.start))
       = pre ++ EvMkdtemp (tmpdir Sample.long_recording_flaky)
           :: mid ++ [EvRmtree (tmpdir Sample.long_recording_flaky)]
       /\ List.filter touches_tmpdir pre = []
       /\ List.filter is_tmpdir_event mid = [].
Proof.
  split; [vm_compute; reflexivity|].
  destruct (temporary_directory_always_removed Sample.long_recording_flaky
              Sample.audio_path ∅ ∅ _ _ (surjective_pairing _)) as [Hnone|Hsome].
  - exfalso. vm_compute in Hnone. discriminate.
  - exact Hsome.
Defined.

(* ===================================================================== *)
(** ** Further properties: chunk files *)
(* ===================================================================== *)

(** Decimal renderings can be read back. *)
Lemma nat_of_str_of_nat (n : nat) : nat_of_str (str_of_nat n) = Some n.
Proof.
  unfold nat_of_str, str_of_nat.
  rewrite List.map_map.
  rewrite (List.map_ext _ id) by (intros a; apply ascii_N_embedding).
  rewrite List.map_id, string_of_list_ascii_of_string.
  pose proof (DecimalNat.Unsigned.of_to n) as Hn.
  destruct (Nat.to_uint n) as [|d|d|d|d|d|d|d|d|d|d] eqn:Hd;
    [rewrite NilZero.usu_nil; cbn; by rewrite <- Hn
    | rewrite NilZero.usu by discriminate; cbn [option_map]; by rewrite Hn ..].
Qed.

Lemma str_of_nat_inj (i j : nat) : str_of_nat i = str_of_nat j -> i = j.
Proof.
  intros H. apply (f_equal nat_of_str) in H.
  rewrite !nat_of_str_of_nat in H. by injection H.
Qed.

Lemma startswith_app_self (a b : str) : startswith (a ++ b) a = true.
Proof.
  induction a as [|x a IH]; [by destruct b|].
  cbn [app startswith]. by rewrite N.eqb_refl, IH.
Qed.

(** A chunk file is the temporary directory followed by a name. *)
Lemma chunk_path_shape (tmp ext : str) (idx : nat) :
  exists sep, (sep = [] \/ sep = [SLASH])
    /\ (forall i, chunk_path tmp ext i
                  = tmp ++ sep ++ py_lit "chunk_" ++ str_of_nat i ++ ext).
Proof.
  unfold chunk_path, join2.
  destruct (negb (truthy tmp) || endswith tmp [SLASH]).
  - exists []. split; [by left|]. intros i. reflexivity.
  - exists [SLASH]. split; [by right|]. intros i. reflexivity.
Qed.

Lemma chunk_path_inj (tmp ext : str) (i j : nat) :
  chunk_path tmp ext i = chunk_path tmp ext j -> i = j.
Proof.
  destruct (chunk_path_shape tmp ext i) as (sep & _ & Hshape).
  rewrite !Hshape. intros H.
  apply app_inv_head, app_inv_head, app_inv_head, app_inv_tail in H.
  by apply str_of_nat_inj.
Qed.

Lemma enumerate_from_fst {A : Type} (xs : list A) : forall i,
  List.map fst (enumerate_from i xs) = seq i (length xs).
Proof.
  induction xs as [|x xs IH]; intros i; [reflexivity|].
  cbn. by rewrite IH.
Qed.

(** X5. The chunks of one recording go to pairwise different temporary
    files, all inside the temporary directory: the file name carries the
    chunk index in decimal, and different indices give different names,
    so no export overwrites the file of another chunk. *)
Theorem chunk_files_distinct (E : Env) (path : str) (audio : AudioSegment) :
  NoDup (List.map temp_path (scheduled_chunks E path audio))
  /\ Forall (fun c => startswith (temp_path c) (tmpdir E) = true)
       (scheduled_chunks E path audio)
  /\ (forall tmp ext i j, chunk_path tmp ext i = chunk_path tmp ext j -> i = j).
Proof.
  split; [|split].
  - unfold scheduled_chunks. rewrite List.map_map.
    change (fun x : nat * Z =>
              temp_path (chunk_of_item audio (snd (splitext (basename path)))
                           (tmpdir E) x))
      with (fun x : nat * Z =>
              chunk_path (tmpdir E) (snd (splitext (basename path))) (fst x)).
    rewrite <- (List.map_map fst
                  (chunk_path (tmpdir E) (snd (splitext (basename path))))).
    unfold enumerate. rewrite enumerate_from_fst, map_is_fmap.
    apply NoDup_fmap_2_strong; [|apply NoDup_seq].
    intros i j _ _. apply chunk_path_inj.
  - unfold scheduled_chunks. apply List.Forall_forall. intros c Hc.
    apply in_map_iff in Hc as (it & <- & _). cbn [chunk_of_item temp_path].
    destruct (chunk_path_shape (tmpdir E) (snd (splitext (basename path))) 0)
      as (sep & _ & Hshape).
    rewrite Hshape. apply startswith_app_self.
  - intros tmp ext i j. apply chunk_path_inj.
Qed.

(** The requests of a loop are for the files of its schedule, in order. *)
Lemma loop_run_requests (E : Env) (audio : AudioSegment) (ext tmp : str)
    h items texts stop evs :
  loop_run E audio ext tmp h items texts stop evs ->
  requested_paths evs
  = List.map (fun it => chunk_path tmp ext (fst it))
      (firstn (requested texts stop) items).
Proof.
  intros Hrun.
  induction Hrun as [h|h it rest Hx|h it rest Hx Hw
                     |h it rest t texts stop evs Hx Hw Hrun IH];
    [reflexivity | reflexivity | reflexivity |].
  unfold requested_paths in *. rewrite omap_app, IH. reflexivity.
Qed.

(** X6. In every run that decodes a file above the size threshold, the
    files sent to the transcription service are chunk files cut in that
    run, in the order they were cut and each sent once: they are all
    the chunk files handed to [export], but for the last one when its
    export raised. Each lies in the temporary directory; so the audio
    file itself is not sent, unless its own path lies there. *)
Theorem large_file_requests_are_chunks (E : Env) (path : str) (D : Z)
    (fs : gmap str str) (ds : gset str) (r : exception + str) (s' : state) :
  isfile E path = true ->
  threshold_bytes < getsize E path ->
  decode_audio E path = Decoded D ->
  transcribe_audio E path (initial fs ds) = (r, s') ->
  (r <> inl ExportError ->
   requested_paths (trace s')
   = List.map temp_path (exported_chunks (trace s')))
  /\ (r = inl ExportError ->
      exists p, List.map temp_path (exported_chunks (trace s'))
                = requested_paths (trace s') ++ [p])
  /\ Forall (fun p => startswith p (tmpdir E) = true) (requested_paths (trace s'))
  /\ NoDup (requested_paths (trace s'))
  /\ (startswith path (tmpdir E) = false ->
      ~ In path (requested_paths (trace s'))).
Proof.
  intros Hf Hsize Hdec Hrun.
  destruct (transcribe_chunked E path D (initial fs ds) Hf Hsize Hdec)
    as (texts & stop & evs & Hloop & Heq).
  rewrite Heq in Hrun. injection Hrun as <- <-.
  pose proof (loop_run_requests _ _ _ _ _ _ _ _ _ Hloop) as Hreq.
  pose proof (loop_run_exports _ _ _ _ _ _ _ _ _ Hloop) as [Hexp Hat].
  cbn [add_events trace initial app].
  assert (requested_paths (EvLog INFO :: EvDecode path :: EvMkdtemp (tmpdir E)
                             :: evs ++ [EvRmtree (tmpdir E)])
          = requested_paths evs) as ->.
  { unfold requested_paths. cbn [omap list_omap requested_path].
    rewrite omap_app. cbn. by rewrite app_nil_r. }
  assert (exported_chunks (EvLog INFO :: EvDecode path :: EvMkdtemp (tmpdir E)
                             :: evs ++ [EvRmtree (tmpdir E)])
          = exported_chunks evs) as ->.
  { unfold exported_chunks. cbn [omap list_omap chunk_of_event].
    rewrite omap_app. cbn. by rewrite app_nil_r. }
  rewrite Hreq, Hexp, List.map_map.
  change (fun x : nat * Z =>
            temp_path (chunk_of_item (whole_recording D)
                         (snd (splitext (basename path))) (tmpdir E) x))
    with (fun x : nat * Z =>
            chunk_path (tmpdir E) (snd (splitext (basename path))) (fst x)).
  assert (Forall (fun p => startswith p (tmpdir E) = true)
            (List.map
               (fun it : nat * Z =>
                  chunk_path (tmpdir E) (snd (splitext (basename path)))
                    (fst it))
               (firstn (requested texts stop)
                  (enumerate (py_range 0 D AUDIO_CHUNK_LENGTH_MS)))))
    as Hin.
  { apply List.Forall_forall. intros p Hp.
    apply in_map_iff in Hp as (it & <- & _).
    destruct (chunk_path_shape (tmpdir E) (snd (splitext (basename path))) 0)
      as (sep & _ & Hshape).
    rewrite Hshape. apply startswith_app_self. }
  split; [|split; [|split; [exact Hin|split]]].
  - intros Hr. unfold requested.
    destruct stop; cbn [loop_result begun] in *;
      [by rewrite Nat.add_0_r | reflexivity | by destruct Hr].
  - intros Hr. unfold requested.
    destruct stop as [|it|it]; cbn [loop_result begun left_at] in *;
      try discriminate.
    exists (chunk_path (tmpdir E) (snd (splitext (basename path))) (fst it)).
    rewrite Nat.add_0_r, Nat.add_1_r.
    rewrite (take_S_r _ _ it Hat), List.map_app. reflexivity.
  - rewrite <- (List.map_map fst
                  (chunk_path (tmpdir E) (snd (splitext (basename path))))).
    rewrite (map_is_fmap (chunk_path _ _)).
    apply NoDup_fmap_2_strong; [intros i j _ _; apply chunk_path_inj|].
    rewrite <- firstn_map. unfold enumerate. rewrite enumerate_from_fst.
    eapply sublist_NoDup; [apply NoDup_seq | apply sublist_take].
  - intros Hout Hsent.
    apply (proj1 (List.Forall_forall _ _) Hin) in Hsent. congruence.
Qed.

Lemma large_file_requests_are_chunks_witness :
  requested_paths (trace (snd (transcribe_audio Sample.long_recording
                                 Sample.audio_path Sample.start)))
  = [py_lit "/tmp/tmpk3/chunk_0.mp3"; py_lit "/tmp/tmpk3/chunk_1.mp3";
     py_lit "/tmp/tmpk3/chunk_2.mp3"]
  /\ startswith Sample.audio_path (tmpdir Sample.long_recording_flaky) = false
  /\ ~ In Sample.audio_path
         (requested_paths (trace (snd (transcribe_audio
            Sample.long_recording_flaky Sample.audio_path Sample.start))))
  /\ exists p,
       List.map temp_path
         (exported_chunks (trace (snd (transcribe_audio Sample.m4a_recording
                                         Sample.m4a_path Sample.start))))
       = requested_paths (trace (snd (transcribe_audio Sample.m4a_recording
                                        Sample.m4a_path Sample.start)))
           ++ [p].
Proof.
  split; [vm_compute; reflexivity|]. split; [reflexivity|]. split.
  - exact (proj2 (proj2 (proj2 (proj2 (large_file_requests_are_chunks
             Sample.long_recording_flaky Sample.audio_path 4000000 ∅ ∅ _ _
             eq_refl eq_refl eq_refl (surjective_pairing _))))) eq_refl).
  - assert (transcribe_audio Sample.m4a_recording Sample.m4a_path Sample.start
            = (inl ExportError,
               snd (transcribe_audio Sample.m4a_recording Sample.m4a_path
                      Sample.start))) as Hrun
      by (vm_compute; reflexivity).
    exact (proj1 (proj2 (large_file_requests_are_chunks
             Sample.m4a_recording Sample.m4a_path 90000 ∅ ∅ _ _
             eq_refl eq_refl eq_refl Hrun)) eq_refl).
Defined.

(** X7. Chunking cuts by duration only. A file above the size
    threshold whose audio lasts at most one chunk length (30 minutes) is
    cut into a single chunk that spans the whole recording. When the
    export of that chunk goes through, its file is the one request
    sent, and the response, as it came, is the transcript (or its error
    ends the run); when the export raises, that error ends the run and
    no request is sent. *)
Theorem short_recording_is_one_chunk (E : Env) (path : str) (D : Z)
    (fs : gmap str str) (ds : gset str) (r : exception + str) (s' : state) :
  isfile E path = true ->
  threshold_bytes < getsize E path ->
  decode_audio E path = Decoded D ->
  0 < D <= AUDIO_CHUNK_LENGTH_MS ->
  transcribe_audio E path (initial fs ds) = (r, s') ->
  let ext := snd (splitext (basename path)) in
  let p := chunk_path (tmpdir E) ext 0 in
  let fmt := lstrip_chars [DOT] ext in
  let whole := {| seg_start := 0; seg_end := D |} in
  exported_chunks (trace s')
  = [ {| index := 0; start_offset_ms := 0; end_offset_ms := D;
         temp_path := p |} ]
  /\ if export_ok E
          [EvLog INFO; EvDecode path; EvMkdtemp (tmpdir E);
           EvExport 0 whole p fmt] p fmt
     then exists resp,
            transcription_events (trace s')
            = [EvTranscribeCall p; EvTranscribeReturn resp]
            /\ r = match resp with
                   | Some text => inr text
                   | None => inl APIError
                   end
     else transcription_events (trace s') = [] /\ r = inl ExportError.
Proof.
  intros Hf Hsize Hdec HD Hrun ext p fmt whole.
  destruct (transcribe_chunked E path D (initial fs ds) Hf Hsize Hdec)
    as (texts & stop & evs & Hloop & Heq).
  rewrite Heq in Hrun. injection Hrun as <- <-.
  rewrite schedule_spec in Hloop.
  rewrite <- (ceil_div_unique AUDIO_CHUNK_LENGTH_MS eq_refl D 1) in Hloop
    by (unfold AUDIO_CHUNK_LENGTH_MS in *; lia).
  cbn [Z.to_nat Pos.to_nat Pos.iter_op seq List.map Z.of_nat Z.mul] in Hloop.
  assert (seg_slice (whole_recording D) 0 (0 + AUDIO_CHUNK_LENGTH_MS)
          = whole) as Hseg.
  { unfold seg_slice, seg_len, whole_recording, whole. cbn [seg_start seg_end].
    f_equal; unfold AUDIO_CHUNK_LENGTH_MS in *; lia. }
  inversion Hloop as [|h it rest Hx|h it rest Hx Hw
                      |h it rest t texts' stop' evs' Hx Hw Hrest];
    subst; unfold chunk_export_history in Hx;
    cbn [initial trace app chunk_events firstn fst snd] in Hx;
    change (Z.of_nat 0 * AUDIO_CHUNK_LENGTH_MS) with 0 in Hx;
    rewrite Hseg in Hx; fold ext in Hx; fold p in Hx; fold fmt in Hx;
    rewrite Hx.
  - cbn [add_events trace initial app chunk_events firstn fst snd].
    change (Z.of_nat 0 * AUDIO_CHUNK_LENGTH_MS) with 0.
    rewrite Hseg. split; [reflexivity|]. by split.
  - cbn [add_events trace initial app chunk_events fst snd].
    change (Z.of_nat 0 * AUDIO_CHUNK_LENGTH_MS) with 0.
    rewrite Hseg. split; [reflexivity|]. by exists None.
  - inversion Hrest; subst.
    cbn [add_events trace initial app chunk_events fst snd].
    change (Z.of_nat 0 * AUDIO_CHUNK_LENGTH_MS) with 0.
    rewrite Hseg. split; [reflexivity|]. by exists (Some t).
Qed.

Lemma short_recording_is_one_chunk_witness :
  threshold_bytes < getsize Sample.dense_recording Sample.audio_path
  /\ List.map (fun c => (index c, start_offset_ms c, end_offset_ms c))
       (exported_chunks (trace (snd (transcribe_audio Sample.dense_recording
                                       Sample.audio_path Sample.start))))
     = [(0%nat, 0, 600000)]
  /\ (transcription_events
        (trace (snd (transcribe_audio Sample.m4a_recording Sample.m4a_path
                       Sample.start))) = []
      /\ fst (transcribe_audio Sample.m4a_recording Sample.m4a_path
                Sample.start) = inl ExportError).
Proof.
  split; [reflexivity|]. split.
  - destruct (short_recording_is_one_chunk Sample.dense_recording
                Sample.audio_path 600000 ∅ ∅ _ _ eq_refl eq_refl eq_refl
                ltac:(unfold AUDIO_CHUNK_LENGTH_MS; lia) (surjective_pairing _))
      as [Hexp _].
    unfold Sample.start. by rewrite Hexp.
  - exact (proj2 (short_recording_is_one_chunk Sample.m4a_recording
                    Sample.m4a_path 90000 ∅ ∅ _ _ eq_refl eq_refl eq_refl
                    ltac:(unfold AUDIO_CHUNK_LENGTH_MS; lia)
                    (surjective_pairing _))).
Defined.

(* ===================================================================== *)
(** ** Further properties: glossary terms *)
(* ===================================================================== *)

Section StripFacts.

Variable p : N -> bool.

Lemma forallb_rev_eq (q : N -> bool) (s : str) :
  forallb q (rev s) = forallb q s.
Proof.
  induction s as [|x s IH]; [reflexivity|].
  cbn [rev forallb]. rewrite forallb_app, IH. cbn.
  by rewrite andb_true_r, andb_comm.
Qed.

Lemma forallb_lstrip_by (q : N -> bool) (s : str) :
  forallb q s = true -> forallb q (lstrip_by p s) = true.
Proof.
  induction s as [|x s IH]; [done|].
  intros H. cbn [lstrip_by]. destruct (p x); [|exact H].
  cbn [forallb] in H. apply andb_true_iff in H as [_ H]. by apply IH.
Qed.

Lemma forallb_rstrip_by (q : N -> bool) (s : str) :
  forallb q s = true -> forallb q (rstrip_by p s) = true.
Proof.
  intros H. unfold rstrip_by. rewrite forallb_rev_eq.
  apply forallb_lstrip_by. by rewrite forallb_rev_eq.
Qed.

Lemma rstrip_by_drop_last (s : str) (c : N) :
  p c = true -> rstrip_by p (s ++ [c]) = rstrip_by p s.
Proof.
  intros Hc. unfold rstrip_by. rewrite rev_app_distr. cbn [rev app lstrip_by].
  by rewrite Hc.
Qed.

Lemma lstrip_by_app_keep (a b : str) :
  lstrip_by p a <> [] -> lstrip_by p (a ++ b) = lstrip_by p a ++ b.
Proof.
  induction a as [|x a IH]; [done|].
  cbn [app lstrip_by]. destruct (p x); [exact IH | reflexivity].
Qed.

Lemma lstrip_by_idem (s : str) : lstrip_by p (lstrip_by p s) = lstrip_by p s.
Proof.
  destruct (lstrip_by p s) as [|c t] eqn:Hl; [reflexivity|].
  cbn. by rewrite (lstrip_by_head p s c t Hl).
Qed.

End StripFacts.

(** The line feed that ends a line does not survive [strip]. *)
Lemma strip_drops_line_end (body : str) : strip (body ++ [LF]) = strip body.
Proof.
  unfold strip.
  destruct (lstrip_by isspace body) as [|c t] eqn:Hl.
  - assert (forallb isspace (body ++ [LF]) = true) as Hall.
    { rewrite forallb_app. apply lstrip_by_nil in Hl. by rewrite Hl. }
    apply lstrip_by_nil in Hall. by rewrite Hall.
  - rewrite lstrip_by_app_keep by (rewrite Hl; discriminate).
    rewrite Hl. by apply rstrip_by_drop_last.
Qed.

Lemma strip_single_line (body : str) :
  single_line body = true -> single_line (strip body) = true.
Proof.
  intros H. unfold strip, single_line in *.
  by apply forallb_rstrip_by, forallb_lstrip_by.
Qed.

Lemma strip_idem (s : str) : strip (strip s) = strip s.
Proof.
  unfold strip.
  assert (lstrip_by isspace (rstrip_by isspace (lstrip_by isspace s))
          = rstrip_by isspace (lstrip_by isspace s)) as ->.
  { destruct (lstrip_by isspace s) as [|c t] eqn:Hl; [reflexivity|].
    pose proof (lstrip_by_head _ _ _ _ Hl) as Hc.
    rewrite (rstrip_by_cons_keep _ _ _ Hc). cbn. by rewrite Hc. }
  unfold rstrip_by at 1 2. by rewrite rev_involutive, lstrip_by_idem.
Qed.

(** Every line a text file hands out is free of line feeds except for
    the one that may end it. *)
Lemma split_lines_shape (s : str) : forall cur,
  single_line cur = true ->
  Forall (fun ln => exists body,
            single_line body = true /\ (ln = body ++ [LF] \/ ln = body))
    (split_lines cur s).
Proof.
  induction s as [|c s IH]; intros cur Hcur.
  - cbn. destruct cur; [constructor|].
    constructor; [|constructor]. eexists. split; [exact Hcur | by right].
  - cbn [split_lines]. destruct (N.eqb_spec c LF) as [->|Hne].
    + constructor; [|by apply IH].
      exists cur. split; [exact Hcur | by left].
    + apply IH. unfold single_line. rewrite forallb_app.
      fold (single_line cur). rewrite Hcur. cbn.
      apply N.eqb_neq in Hne. by rewrite Hne.
Qed.

Lemma terms_of_lines_clean (lines : list str) :
  Forall (fun ln => exists body,
            single_line body = true /\ (ln = body ++ [LF] \/ ln = body)) lines ->
  Forall (fun t => t <> [] /\ strip t = t /\ single_line t = true)
    (terms_of_lines lines).
Proof.
  intros Hlines. pose proof (terms_nonempty lines) as Hne.
  unfold terms_of_lines in *.
  induction Hlines as [|ln lines (body & Hbody & Hln) Hlines IH];
    [constructor|].
  cbn [List.filter] in *. destruct (keep_line ln); [|by apply IH].
  cbn [List.map] in *. apply Forall_cons in Hne as [Hne1 Hne2].
  constructor; [|by apply IH].
  split; [exact Hne1|]. split; [apply strip_idem|].
  destruct Hln as [-> | ->];
    rewrite ?strip_drops_line_end; by apply strip_single_line.
Qed.

Lemma loaded_terms_clean (script_file : str) (fs : gmap str str) :
  Forall (fun t => t <> [] /\ strip t = t /\ single_line t = true)
    (load_special_terms script_file fs).
Proof.
  unfold load_special_terms.
  destruct (fs !! SPECIAL_TERMS_FILE script_file) as [content|];
    [|constructor].
  apply terms_of_lines_clean. unfold file_lines. by apply split_lines_shape.
Qed.

(** X8. Whatever the glossary file holds, every term the loader
    returns is non-empty, has no whitespace at either end (stripping it
    again changes nothing) and contains no line feed. *)
Theorem loaded_terms_are_clean (script_file : str) (fs : gmap str str) :
  Forall (fun t => t <> [] /\ strip t = t /\ single_line t = true)
    (load_special_terms script_file fs).
Proof. apply loaded_terms_clean. Qed.

(** X9. The loader and the prompt builder fit together: when the
    glossary file yields at least one term, the glossary section of the
    prompt, read line by line, is the instruction line followed by
    exactly one ["- term"] line for each loaded term, in file order. *)
Theorem glossary_file_renders_line_per_term (script_file : str)
    (fs : gmap str str) :
  load_special_terms script_file fs <> [] ->
  split_lf [] (term_section (load_special_terms script_file fs))
  = TERM_HEADING :: List.map bullet (load_special_terms script_file fs).
Proof.
  intros Hne. pose proof (loaded_terms_clean script_file fs) as Hclean.
  destruct (load_special_terms script_file fs) as [|t ts]; [done|].
  cbn [term_section]. rewrite <- app_assoc. cbn [app].
  rewrite (split_lf_app TERM_HEADING [] _ eq_refl). cbn [app]. f_equal.
  apply split_lf_join; [discriminate|].
  apply bullets_single_line. apply forallb_forall.
  intros x Hx. apply (proj1 (List.Forall_forall _ _) Hclean x) in Hx.
  by destruct Hx as (_ & _ & Hx).
Qed.

Lemma glossary_file_renders_line_per_term_witness :
  load_special_terms (script_file Sample.long_recording) Sample.glossary
  = [py_lit "Rocq"; py_lit "stdpp"; py_lit "Rocq"]
  /\ split_lf []
       (term_section
          (load_special_terms (script_file Sample.long_recording)
             Sample.glossary))
     = [TERM_HEADING; py_lit "- Rocq"; py_lit "- stdpp"; py_lit "- Rocq"].
Proof.
  split; [vm_compute; reflexivity|].
  rewrite (glossary_file_renders_line_per_term
             (script_file Sample.long_recording) Sample.glossary
             ltac:(vm_compute; discriminate)).
  vm_compute. reflexivity.
Defined.

(* ===================================================================== *)
(** ** Further properties: the chat request and the ways to fail *)
(* ===================================================================== *)

Lemma in_chunk_loop_no_chat (evs : list event) :
  forallb in_chunk_loop evs = true -> chat_calls evs = [].
Proof.
  induction evs as [|e evs IH]; [done|].
  cbn [forallb]. intros H. apply andb_true_iff in H as [He Hevs].
  unfold chat_calls in *. cbn [omap list_omap]. rewrite (IH Hevs).
  by destruct e as [[]| | | | | | | | | | | |].
Qed.

Lemma chat_calls_app (a b : list event) :
  chat_calls (a ++ b) = chat_calls a ++ chat_calls b.
Proof. apply omap_app. Qed.

(** The transcription phase sends nothing to the chat service. *)
Lemma transcribe_no_chat (E : Env) (path : str) (s : state) :
  exists evs,
    snd (transcribe_audio E path s) = add_events s evs /\ chat_calls evs = [].
Proof.
  destruct (transcribe_cases E path s)
    as [[_ Heq]|[(_ & _ & resp & Heq)|[(_ & _ & _ & Heq)
       |(_ & _ & D & texts & stop & evs & _ & Hloop & Heq)]]];
    rewrite Heq; eexists; (split; [reflexivity|]); try reflexivity.
  rewrite !chat_calls_app.
  rewrite (in_chunk_loop_no_chat evs (loop_run_events_kind _ _ _ _ _ _ _ _ _ Hloop)).
  reflexivity.
Qed.

(** X10. A run sends at most one request to the chat service, and only
    once the transcription has returned: the request asks model
    [gpt-4o] for at most 1500 tokens at temperature 1/2, with the system
    message and the prompt that [build_prompt] makes of the whole
    transcript, the terms of the glossary file and the prompt type; no
    transcription event follows it. A run without that request did not
    succeed. *)
Theorem one_chat_request_after_transcription (E : Env)
    (audio_file prompt_type : str) (fs : gmap str str) (ds : gset str)
    (r : exception + unit) (s' : state) :
  script E audio_file prompt_type (initial fs ds) = (r, s') ->
  (chat_calls (trace s') = [] /\ r <> inr tt)
  \/ exists transcript req pre post,
       fst (transcribe_audio E audio_file (initial fs ds)) = inr transcript
       /\ trace s' = pre ++ EvChatCall req :: post
       /\ chat_calls pre = [] /\ chat_calls post = []
       /\ transcription_events post = []
       /\ req_model req = py_lit "gpt-4o"
       /\ req_max_tokens req = 1500
       /\ req_temperature req = 1 # 2
       /\ (req_user req, req_system req)
          = build_prompt transcript
              (load_special_terms (script_file E) fs) prompt_type.
Proof.
  intros Hrun. unfold script in Hrun.
  destruct (api_key E) as [[|c k]|];
    [injection Hrun as <- <-; left; by split
    | | injection Hrun as <- <-; left; by split].
  rewrite main_run in Hrun.
  destruct (transcribe_no_chat E audio_file (initial fs ds))
    as (evs & Hs1 & Hnochat).
  destruct (transcribe_audio E audio_file (initial fs ds))
    as [[e|transcript] s1]; cbn [fst snd] in *; subst s1.
  - injection Hrun as <- <-. left. by split.
  - right.
    exists transcript,
      (summary_request transcript (load_special_terms (script_file E) fs)
         prompt_type), (evs ++ [EvLog INFO]).
    cbv zeta in Hrun. cbn [add_events initial trace files dirs app] in Hrun.
    assert (chat_calls (evs ++ [EvLog INFO]) = []) as Hpre
      by (rewrite chat_calls_app, Hnochat; reflexivity).
    assert (forall post,
              trace s' = (evs ++ [EvLog INFO])
                           ++ EvChatCall
                                (summary_request transcript
                                   (load_special_terms (script_file E) fs)
                                   prompt_type) :: post ->
              chat_calls post = [] -> transcription_events post = [] ->
              exists post,
                (inr transcript : exception + str) = inr transcript
                /\ trace s' = (evs ++ [EvLog INFO])
                                ++ EvChatCall
                                     (summary_request transcript
                                        (load_special_terms (script_file E) fs)
                                        prompt_type) :: post
                /\ chat_calls (evs ++ [EvLog INFO]) = []
                /\ chat_calls post = []
                /\ transcription_events post = []
                /\ req_model
                     (summary_request transcript
                        (load_special_terms (script_file E) fs) prompt_type)
                   = py_lit "gpt-4o"
                /\ req_max_tokens
                     (summary_request transcript
                        (load_special_terms (script_file E) fs) prompt_type)
                   = 1500
                /\ req_temperature
                     (summary_request transcript
                        (load_special_terms (script_file E) fs) prompt_type)
                   = 1 # 2
                /\ (req_user
                      (summary_request transcript
                         (load_special_terms (script_file E) fs) prompt_type),
                    req_system
                      (summary_request transcript
                         (load_special_terms (script_file E) fs) prompt_type))
                   = build_prompt transcript
                       (load_special_terms (script_file E) fs) prompt_type)
      as Hshape.
    { intros post Htrace Hc Ht. exists post.
      split; [reflexivity|]. split; [exact Htrace|]. split; [exact Hpre|].
      split; [exact Hc|]. split; [exact Ht|].
      do 3 (split; [reflexivity|]).
      unfold summary_request; cbn [req_user req_system].
      by destruct (build_prompt _ _ _). }
    destruct (chat E _ _) as [[|[content|] choices]|].
    + injection Hrun as <- <-.
      apply (Hshape [EvChatReturn (Some []); EvLog ERROR]);
        [|reflexivity|reflexivity].
      cbn [add_events trace initial app]. by rewrite <- app_assoc.
    + match type of Hrun with
      | output_phase E ?a ?t ?c ?s0 = _ =>
          destruct (output_phase_run E a t c s0) as (n & Htrace & _)
      end.
      rewrite Hrun in Htrace. cbn [snd add_events trace initial app] in Htrace.
      apply (Hshape (EvChatReturn (Some (Some content :: choices))
                       :: firstn (S n)
                            (output_events E audio_file transcript
                               (strip content)))).
      * rewrite Htrace, <- !app_assoc. reflexivity.
      * by destruct n as [|[|[|[|[|[|[|n]]]]]]].
      * by destruct n as [|[|[|[|[|[|[|n]]]]]]].
    + injection Hrun as <- <-.
      apply (Hshape [EvChatReturn (Some (None :: choices)); EvLog ERROR]);
        [|reflexivity|reflexivity].
      cbn [add_events trace initial app]. by rewrite <- app_assoc.
    + injection Hrun as <- <-.
      apply (Hshape [EvChatReturn None; EvLog ERROR]);
        [|reflexivity|reflexivity].
      cbn [add_events trace initial app]. by rewrite <- app_assoc.
Qed.

Lemma one_chat_request_after_transcription_witness :
  chat_calls (trace (snd (script Sample.long_recording Sample.audio_path
                            KEY_MEETING (initial Sample.glossary ∅))))
  = [ summary_request
        (join CHUNK_SEPARATOR
           [py_lit "text of chunk_0.mp3"; py_lit "text of chunk_1.mp3";
            py_lit "text of chunk_2.mp3"])
        [py_lit "Rocq"; py_lit "stdpp"; py_lit "Rocq"] KEY_MEETING ]
  /\ chat_calls (trace (snd (script Sample.long_recording_flaky
                               Sample.audio_path KEY_MEETING
                               (initial Sample.glossary ∅)))) = [].
Proof.
  split; [vm_compute; reflexivity|].
  destruct (one_chat_request_after_transcription Sample.long_recording_flaky
              Sample.audio_path KEY_MEETING Sample.glossary ∅ _ _
              (surjective_pairing _))
    as [[Hnone _]|(transcript & req & pre & post & Htr & _)].
  - exact Hnone.
  - exfalso. vm_compute in Htr. discriminate.
Defined.








(* ===================================================================== *)
(** ** Further properties: where the output goes *)
(* ===================================================================== *)

Lemma zero_pad_digits (w n : nat) : forallb is_digit (zero_pad w n) = true.
Proof.
  unfold zero_pad. cbv zeta. rewrite forallb_app.
  destruct (str_of_nat_digits n) as [_ ->]. rewrite andb_true_r.
  induction (w - length (str_of_nat n))%nat as [|k IH]; [reflexivity|].
  cbn [repeat forallb]. by rewrite IH.
Qed.

Lemma digits_no_slash (l : str) :
  forallb is_digit l = true -> List.filter (N.eqb SLASH) l = [].
Proof.
  induction l as [|c l IH]; [done|].
  cbn [forallb List.filter]. intros H. apply andb_true_iff in H as [Hc Hl].
  rewrite (IH Hl).
  destruct (N.eqb_spec SLASH c) as [<-|]; [discriminate | reflexivity].
Qed.

Lemma no_slash_filter (l : str) :
  Forall (fun x => x <> SLASH) l -> List.filter (N.eqb SLASH) l = [].
Proof.
  induction 1 as [|c l Hc Hl IH]; [done|].
  cbn [List.filter]. rewrite IH.
  destruct (N.eqb_spec SLASH c) as [<-|]; [done | reflexivity].
Qed.

Lemma output_dir_no_slash (E : Env) :
  List.filter (N.eqb SLASH) (output_dir E) = [].
Proof.
  unfold output_dir, strftime_run.
  rewrite !List.filter_app, !(digits_no_slash _ (zero_pad_digits _ _)).
  reflexivity.
Qed.

Lemma output_dir_starts_with_digit (E : Env) :
  exists c rest, output_dir E = c :: rest /\ is_digit c = true.
Proof.
  unfold output_dir, strftime_run.
  pose proof (zero_pad_digits 4 (dt_year (now E))) as Hd.
  destruct (zero_pad_last_digit 4 (dt_year (now E))) as (front & c & Heq & _).
  destruct (zero_pad 4 (dt_year (now E))) as [|d rest];
    [by destruct front|].
  cbn [forallb] in Hd. apply andb_true_iff in Hd as [Hd _].
  by exists d, (rest ++ zero_pad 2 (dt_month (now E))
                  ++ zero_pad 2 (dt_day (now E)) ++ py_lit "_"
                  ++ zero_pad 2 (dt_hour (now E))
                  ++ zero_pad 2 (dt_minute (now E))).
Qed.

(** X12. Whatever path the audio file is given by (absolute, nested, or
    leading out of the working directory), the summary is written
    directly inside the run directory of the working directory: the
    output path is relative, holds exactly one separator, and is the
    directory name, the separator, and the stem of the audio file with
    [.md]. *)
Theorem output_stays_in_run_directory (E : Env) (audio_file : str) :
  output_path E audio_file
  = output_dir E ++ [SLASH] ++ output_base audio_file ++ py_lit ".md"
  /\ List.filter (N.eqb SLASH) (output_path E audio_file) = [SLASH]
  /\ startswith (output_path E audio_file) [SLASH] = false
  /\ List.filter (N.eqb SLASH) (output_dir E) = []
  /\ List.filter (N.eqb SLASH) (output_base audio_file) = [].
Proof.
  pose proof (output_path_spec E audio_file) as Hpath.
  pose proof (no_slash_filter _ (output_base_no_slash audio_file)) as Hstem.
  split; [exact Hpath|]. split; [|split; [|split]].
  - rewrite Hpath, !List.filter_app, output_dir_no_slash, Hstem. reflexivity.
  - rewrite Hpath.
    destruct (output_dir_starts_with_digit E) as (c & rest & -> & Hc).
    cbn [app startswith].
    destruct (N.eqb_spec SLASH c) as [<-|]; [discriminate | reflexivity].
  - apply output_dir_no_slash.
  - exact Hstem.
Qed.

(** X13. The output path depends on the minute of the clock and on the
    stem of the audio file only. When two runs in the same minute, on
    audio files with the same stem (in whatever directories, with
    whatever extensions), both succeed one after the other, the second
    writes the very file the first one wrote: afterwards the file system
    differs from the one before the first run in that single file, the
    summary of the first run is gone, and the run directory is made
    once. *)
Theorem same_minute_same_stem_overwrites (E1 E2 : Env)
    (a1 a2 p1 p2 : str) (fs : gmap str str) (ds : gset str) (s1 s2 : state) :
  script E1 a1 p1 (initial fs ds) = (inr tt, s1) ->
  script E2 a2 p2 (initial (files s1) (dirs s1)) = (inr tt, s2) ->
  (dt_year (now E1), dt_month (now E1), dt_day (now E1), dt_hour (now E1),
   dt_minute (now E1))
  = (dt_year (now E2), dt_month (now E2), dt_day (now E2), dt_hour (now E2),
     dt_minute (now E2)) ->
  fst (splitext (basename a1)) = fst (splitext (basename a2)) ->
  output_path E1 a1 = output_path E2 a2
  /\ is_Some (files s1 !! output_path E1 a1)
  /\ (exists content, files s2 = <[output_path E2 a2 := content]> fs)
  /\ (forall q, q <> output_path E2 a2 -> files s2 !! q = fs !! q)
  /\ dirs s2 = dirs s1.
Proof.
  intros Hrun1 Hrun2 Hclock Hstem.
  assert (output_path E1 a1 = output_path E2 a2) as Hpath.
  { unfold output_path, output_dir, strftime_run, output_base.
    injection Hclock as -> -> -> -> ->. by rewrite Hstem. }
  assert (output_dir E1 = output_dir E2) as Hdir.
  { unfold output_dir, strftime_run. by injection Hclock as -> -> -> -> ->. }
  pose proof (script_outcome E1 a1 p1 fs ds) as H1.
  pose proof (script_outcome E2 a2 p2 (files s1) (dirs s1)) as H2.
  cbv zeta in H1, H2. rewrite Hrun1 in H1. rewrite Hrun2 in H2.
  cbn [fst snd] in H1, H2.
  destruct H1 as [((exn & Hexn & _) & _)
                 |(_ & _ & c1 & _ & _ & _ & _ & _ & _ & _ & _ & Hfs1 & Hds1)];
    [discriminate|].
  destruct H2 as [((exn & Hexn & _) & _)
                 |(_ & _ & c2 & _ & _ & _ & _ & _ & _ & _ & _ & Hfs2 & Hds2)];
    [discriminate|].
  split; [exact Hpath|]. split; [|split; [|split]].
  - rewrite Hfs1, lookup_insert_eq. by eexists.
  - eexists. rewrite Hfs2, Hfs1, Hpath. apply insert_insert_eq.
  - intros q Hq. rewrite Hfs2, Hfs1, Hpath.
    by rewrite !lookup_insert_ne.
  - rewrite Hds2, Hds1, Hdir. by rewrite (assoc_L (∪)), (idemp_L (∪)).
Qed.

Lemma same_minute_same_stem_overwrites_witness :
  files (snd (script Sample.short_recording Sample.audio_path KEY_GENERAL
                Sample.start))
  = {[ py_lit "20240131_0905/standup.md"
       := py_lit "# 要約: standup\n\n- decided: ship" ]}
  /\ files (snd (script Sample.other_world Sample.other_audio_path KEY_MEETING
                   (initial
                      (files (snd (script Sample.short_recording
                                     Sample.audio_path KEY_GENERAL
                                     Sample.start)))
                      (dirs (snd (script Sample.short_recording
                                    Sample.audio_path KEY_GENERAL
                                    Sample.start))))))
     !! py_lit "20240131_0905/standup.md"
     = Some (py_lit "# 要約: standup\n\nsecond summary")
  /\ output_path Sample.short_recording Sample.audio_path
     = output_path Sample.other_world Sample.other_audio_path.
Proof.
  split; [vm_compute; reflexivity|]. split; [vm_compute; reflexivity|].
  assert (script Sample.short_recording Sample.audio_path KEY_GENERAL
            (initial ∅ ∅)
          = (inr tt,
             snd (script Sample.short_recording Sample.audio_path KEY_GENERAL
                    Sample.start))) as Hrun1
    by (vm_compute; reflexivity).
  assert (script Sample.other_world Sample.other_audio_path KEY_MEETING
            (initial
               (files (snd (script Sample.short_recording Sample.audio_path
                              KEY_GENERAL Sample.start)))
               (dirs (snd (script Sample.short_recording Sample.audio_path
                             KEY_GENERAL Sample.start))))
          = (inr tt,
             snd (script Sample.other_world Sample.other_audio_path KEY_MEETING
                    (initial
                       (files (snd (script Sample.short_recording
                                      Sample.audio_path KEY_GENERAL
                                      Sample.start)))
                       (dirs (snd (script Sample.short_recording
                                     Sample.audio_path KEY_GENERAL
                                     Sample.start))))))) as Hrun2
    by (vm_compute; reflexivity).
  exact (proj1 (same_minute_same_stem_overwrites Sample.short_recording
                  Sample.other_world Sample.audio_path Sample.other_audio_path
                  KEY_GENERAL KEY_MEETING ∅ ∅ _ _ Hrun1 Hrun2 eq_refl eq_refl)).
Defined.

(* ===================================================================== *)
(** ** Further properties: when a file is decoded *)
(* ===================================================================== *)

Lemma in_chunk_loop_no_decode (evs : list event) (path : str) :
  forallb in_chunk_loop evs = true -> ~ In (EvDecode path) evs.
Proof.
  intros Hall Hin.
  apply (proj1 (forallb_forall _ _) Hall) in Hin. discriminate.
Qed.

(** X14. [transcribe_audio] hands a file to the audio decoder exactly
    when the file exists and its size is strictly above
    25 * 1024 * 1024 bytes; it does so at most once, before any
    transcription request. A file of exactly that size is not decoded. *)
Theorem decoded_iff_above_threshold (E : Env) (path : str)
    (fs : gmap str str) (ds : gset str) :
  let tr := trace (snd (transcribe_audio E path (initial fs ds))) in
  (In (EvDecode path) tr
   <-> isfile E path = true /\ 25 * 1024 * 1024 < getsize E path)
  /\ (forall q pre post,
        tr = pre ++ EvDecode q :: post ->
        q = path /\ pre = [EvLog INFO]
        /\ forall q', ~ In (EvDecode q') post).
Proof.
  cbv zeta.
  destruct (transcribe_cases E path (initial fs ds))
    as [[Hf Heq]|[(Hf & Hsize & resp & Heq)|[(Hf & Hsize & _ & Heq)
       |(Hf & Hsize & D & texts & stop & evs & _ & Hloop & Heq)]]];
    rewrite Heq; cbn [snd add_events trace initial app];
    unfold threshold_bytes, MAX_FILE_SIZE_MB in *.
  - split.
    + split; [intros [H|[]]; discriminate | intros [H _]; congruence].
    + intros q pre post H. exfalso.
      pose proof (in_elt (EvDecode q) pre post) as Hin. rewrite <- H in Hin.
      destruct Hin as [Hin|[]]. discriminate.
  - split.
    + split; [intros [H|[H|[H|[]]]]; discriminate | intros [_ H]; lia].
    + intros q pre post H. exfalso.
      pose proof (in_elt (EvDecode q) pre post) as Hin. rewrite <- H in Hin.
      destruct Hin as [Hin|[Hin|[Hin|[]]]]; discriminate.
  - split.
    + split; [intros _; by split | intros _; cbn; tauto].
    + intros q [|x [|y pre]] post H.
      * discriminate.
      * cbn [app] in H. simplify_eq. split; [reflexivity|]. split; [reflexivity|].
        intros q' [Hq|[]]. discriminate.
      * exfalso. cbn [app] in H. simplify_eq.
        destruct pre as [|z [|z' pre]]; discriminate.
  - pose proof (loop_run_events_kind _ _ _ _ _ _ _ _ _ Hloop) as Hkind.
    assert (forall q', ~ In (EvDecode q')
                         (EvMkdtemp (tmpdir E) :: evs ++ [EvRmtree (tmpdir E)]))
      as Hrest.
    { intros q' [H|H]; [discriminate|].
      apply in_app_or in H as [H|[H|[]]]; [|discriminate].
      by apply (in_chunk_loop_no_decode evs q'). }
    split.
    + split; [intros _; by split | intros _; cbn; tauto].
    + intros q [|x [|y pre]] post H.
      * discriminate.
      * cbn [app] in H. simplify_eq. split; [reflexivity|]. by split.
      * exfalso. cbn [app] in H. injection H as _ _ H.
        apply (Hrest q). rewrite H. apply in_elt.
Qed.
